(** * GridWorldEnv: a shallow embedding of [trial_04_custom_env.py]

    The environment owns two positions on a [size] x [size] grid and a random
    generator.  [reset] samples the two positions, [step] moves the agent by
    one cell and clamps it to the grid.

    Modelling conventions.
    - Positions are NumPy arrays of shape (2,) and the platform integer type
      (64 bits): a pair of [Z] whose arithmetic wraps at 64 bits ([wrap64]).
    - [np.linalg.norm] converts its argument to float64.  Every float that
      occurs here has an integer value, so a float64 is modelled by the
      integer it denotes and the conversion by the rounding [float64_of_Z]
      (round to nearest, ties to even, 53 bits of precision).
    - NumPy's generator and Gymnasium's seeding and space constructors are
      library code: they are the interface [Library], whose laws record the
      part of their documented contract the environment relies on.
    - Methods run in a state and exception monad over the environment; the
      resampling loop of [reset] takes fuel, and running out of it is the
      outcome [Diverge]. *)

From Stdlib Require Import Floats.SpecFloat.
From stdpp Require Import base numbers gmap.

Local Open Scope Z_scope.

(** ** Numbers *)

Module Int64.

Definition min_int : Z := - 2 ^ 63.
Definition max_int : Z := 2 ^ 63 - 1.

(** Two's complement wrap-around of 64-bit array arithmetic. *)
Definition wrap64 (z : Z) : Z := (z + 2 ^ 63) `mod` 2 ^ 64 - 2 ^ 63.

Definition add (a b : Z) : Z := wrap64 (a + b).
Definition sub (a b : Z) : Z := wrap64 (a - b).

End Int64.

Module Float64.

(** Rounding of an integer to the nearest float64, ties to even.  Below
    2^53 in magnitude every integer is a float64. *)
Definition float64_of_Z (z : Z) : Z :=
  let m := Z.abs z in
  let e := Z.log2 m - 52 in
  if e <=? 0 then z
  else
    let q := m / 2 ^ e in
    let r := m `mod` 2 ^ e in
    let up := (2 ^ e <? 2 * r) || ((2 * r =? 2 ^ e) && Z.odd q) in
    Z.sgn z * ((if up then q + 1 else q) * 2 ^ e).

(** Sum of two integer-valued floats: the exact sum, correctly rounded. *)
Definition add (a b : Z) : Z := float64_of_Z (a + b).

Definition abs (a : Z) : Z := Z.abs a.

(** The same conversion and sum through the Standard Library's
    specification of IEEE 754 binary64, to check the rounding above
    against. *)
Definition binary64_of_Z (z : Z) : spec_float :=
  match z with
  | Z0 => S754_zero false
  | Zpos p => binary_normalize 53 1024 (Zpos p) 0 false
  | Zneg p => SFopp (binary_normalize 53 1024 (Zpos p) 0 false)
  end.

Definition Z_of_binary64 (f : spec_float) : Z :=
  match f with
  | S754_finite s m e =>
      (if s then -1 else 1)
      * (if 0 <=? e then Z.pos m * 2 ^ e else Z.pos m / 2 ^ (- e))
  | _ => 0
  end.

Definition binary64_add (a b : spec_float) : spec_float := SFadd 53 1024 a b.

End Float64.

(** ** Arrays of shape (2,) *)

Abbreviation array2 := (Z * Z)%type.

(** [a + b] on integer arrays. *)
Definition array_add (a b : array2) : array2 :=
  (Int64.add a.1 b.1, Int64.add a.2 b.2).

(** [a - b] on integer arrays. *)
Definition array_sub (a b : array2) : array2 :=
  (Int64.sub a.1 b.1, Int64.sub a.2 b.2).

(** [np.clip(x, lo, hi)] is [minimum(maximum(x, lo), hi)]. *)
Definition clip1 (x lo hi : Z) : Z := Z.min (Z.max x lo) hi.

Definition clip (a : array2) (lo hi : Z) : array2 :=
  (clip1 a.1 lo hi, clip1 a.2 lo hi).

(** [np.array_equal] on two arrays of shape (2,). *)
Definition array_equal (a b : array2) : bool :=
  (a.1 =? b.1) && (a.2 =? b.2).

(** [np.linalg.norm(v, ord=1)]: the argument is cast to float64, then
    [add.reduce(abs(v))]. *)
Definition linalg_norm_ord1 (v : array2) : Z :=
  Float64.add (Float64.abs (Float64.float64_of_Z v.1))
              (Float64.abs (Float64.float64_of_Z v.2)).

(** ** Exceptions and outcomes *)

Inductive exn : Type :=
| KeyError (key : Z)      (* a dictionary lookup with no entry for [key] *)
| ValueError              (* raised by NumPy or by a space constructor *)
| GymError.               (* raised by Gymnasium's seeding *)

Inductive result (A : Type) : Type :=
| Ok (a : A)
| Raise (x : exn)
| Diverge.

Arguments Ok {A} a.
Arguments Raise {A} x.
Arguments Diverge {A}.

(** ** The libraries the environment calls *)

Class Library : Type := {
  (* State of a [numpy.random.Generator]. *)
  Generator : Type;
  (* [gymnasium.utils.seeding.np_random(seed)]; [None] when it raises. *)
  seeding_np_random : Z -> option Generator;
  (* [g.integers(low, high, size=2, dtype=int)]: the two draws and the
      generator's next state; [None] when it raises. *)
  integers : Generator -> Z -> Z -> option (array2 * Generator);
  (* The draws lie in [low, high), and the bounds fit the integer type. *)
  integers_range : forall g low high p g',
    integers g low high = Some (p, g') ->
    Int64.min_int <= low /\ high <= Int64.max_int + 1 /\
    low <= p.1 < high /\ low <= p.2 < high;
  (* Whether [gym.spaces.Box(low, high, shape=(2,), dtype=int)] is built. *)
  Box_accepts : Z -> Z -> bool;
  Box_accepts_ordered : forall high,
    0 <= high <= Int64.max_int -> Box_accepts 0 high = true;
  (* A box whose upper bound lies below its lower bound is refused: the
      constructor raises. *)
  Box_accepts_unordered : forall high,
    high < 0 -> Box_accepts 0 high = false
}.

(** ** The environment *)

Record Box : Type := { low : Z; high : Z }.

Record Observation : Type := { agent : array2; target : array2 }.

Record Info : Type := { distance : Z }.

(** The table built in [__init__]; it is never reassigned. *)
Definition _action_to_direction : gmap Z array2 :=
  {[ 0 := (1, 0); 1 := (0, 1); 2 := (-1, 0); 3 := (0, -1) ]}.

Section Env.

Context `{L : Library}.

Record GridWorldEnv : Type := {
  size : Z;
  _agent_location : array2;
  _target_location : array2;
  observation_space : Box * Box;      (* keys "agent" and "target" *)
  action_space : Z;                   (* Discrete(n) *)
  _np_random : option Generator       (* set by the base class *)
}.

Definition set_agent_location (v : array2) (self : GridWorldEnv) :=
  {| size := size self;
     _agent_location := v;
     _target_location := _target_location self;
     observation_space := observation_space self;
     action_space := action_space self;
     _np_random := _np_random self |}.

Definition set_target_location (v : array2) (self : GridWorldEnv) :=
  {| size := size self;
     _agent_location := _agent_location self;
     _target_location := v;
     observation_space := observation_space self;
     action_space := action_space self;
     _np_random := _np_random self |}.

Definition set_np_random (g : Generator) (self : GridWorldEnv) :=
  {| size := size self;
     _agent_location := _agent_location self;
     _target_location := _target_location self;
     observation_space := observation_space self;
     action_space := action_space self;
     _np_random := Some g |}.

(** *** State and exception monad *)

Definition M (A : Type) : Type := GridWorldEnv -> result A * GridWorldEnv.

Definition ret {A} (a : A) : M A := fun self => (Ok a, self).

Definition bind {A B} (m : M A) (k : A -> M B) : M B :=
  fun self =>
    match m self with
    | (Ok a, self') => k a self'
    | (Raise x, self') => (Raise x, self')
    | (Diverge, self') => (Diverge, self')
    end.

Definition get : M GridWorldEnv := fun self => (Ok self, self).
Definition modify (f : GridWorldEnv -> GridWorldEnv) : M unit :=
  fun self => (Ok tt, f self).
Definition raise {A} (x : exn) : M A := fun self => (Raise x, self).
Definition diverge {A} : M A := fun self => (Diverge, self).

(** [d[k]] on a dictionary. *)
Definition getitem (d : gmap Z array2) (k : Z) : M array2 :=
  match d !! k with
  | Some v => ret v
  | None => raise (KeyError k)
  end.

End Env.

Notation "x <- m ;; k" := (bind m (fun x => k))
  (at level 100, m at next level, right associativity, only parsing).
Notation "m ;;; k" := (bind m (fun _ => k))
  (at level 100, right associativity, only parsing).

Section Methods.

Context `{L : Library}.

(** *** The base class [gymnasium.Env] *)

(** [Env.reset(seed=seed)]: a given seed replaces the generator. *)
Definition super_reset (seed : option Z) : M unit :=
  match seed with
  | None => ret tt
  | Some s =>
      match seeding_np_random s with
      | Some g => modify (set_np_random g)
      | None => raise GymError
      end
  end.

(** The property [Env.np_random]: an environment without a generator gets
    one seeded from the operating system, here the argument [entropy]. *)
Definition np_random (entropy : Generator) : M Generator :=
  self <- get ;;
  match _np_random self with
  | Some g => ret g
  | None => modify (set_np_random entropy) ;;; ret entropy
  end.

(** [self.np_random.integers(low, high, size=2, dtype=int)]; the generator
    advances in place. *)
Definition np_random_integers (entropy : Generator) (low high : Z)
  : M array2 :=
  g <- np_random entropy ;;
  match integers g low high with
  | Some (p, g') => modify (set_np_random g') ;;; ret p
  | None => raise ValueError
  end.

(** *** [GridWorldEnv] *)

Definition default_size : Z := 5.

(** [__init__(size)]: both positions start at the sentinel (-1, -1). *)
Definition __init__ (size : Z) : result GridWorldEnv :=
  if Box_accepts 0 (size - 1) then
    Ok {| size := size;
          _agent_location := (-1, -1);
          _target_location := (-1, -1);
          observation_space :=
            ({| low := 0; high := size - 1 |},
             {| low := 0; high := size - 1 |});
          action_space := 4;
          _np_random := None |}
  else Raise ValueError.

Definition _get_obs : M Observation :=
  self <- get ;;
  ret {| agent := _agent_location self; target := _target_location self |}.

Definition _get_info : M Info :=
  self <- get ;;
  ret {| distance :=
           linalg_norm_ord1
             (array_sub (_agent_location self) (_target_location self)) |}.

(** The loop [while np.array_equal(target, agent): target = draw]. *)
Fixpoint resample (fuel : nat) (entropy : Generator) : M unit :=
  self <- get ;;
  if array_equal (_target_location self) (_agent_location self) then
    match fuel with
    | O => diverge
    | S fuel' =>
        p <- np_random_integers entropy 0 (size self) ;;
        modify (set_target_location p) ;;;
        resample fuel' entropy
    end
  else ret tt.

(** [reset(seed, options)]; [options] is not used. *)
Definition reset (fuel : nat) (entropy : Generator) (seed : option Z)
  : M (Observation * Info) :=
  super_reset seed ;;;
  self <- get ;;
  p <- np_random_integers entropy 0 (size self) ;;
  modify (set_agent_location p) ;;;
  self <- get ;;
  modify (set_target_location (_agent_location self)) ;;;
  resample fuel entropy ;;;
  observation <- _get_obs ;;
  info <- _get_info ;;
  ret (observation, info).

(** [step(action)] returns
    [(observation, reward, terminated, truncated, info)]. *)
Definition step (action : Z) : M (Observation * Z * bool * bool * Info) :=
  direction <- getitem _action_to_direction action ;;
  self <- get ;;
  modify (set_agent_location
            (clip (array_add (_agent_location self) direction)
                  0 (size self - 1))) ;;;
  self <- get ;;
  let terminated :=
    array_equal (_agent_location self) (_target_location self) in
  let truncated := false in
  let reward := if terminated then 1 else 0 in
  observation <- _get_obs ;;
  info <- _get_info ;;
  ret (observation, reward, terminated, truncated, info).

End Methods.

(** ** Vocabulary of the specification *)

(** The actions of the specification. *)
Definition valid_action (a : Z) : Prop := a = 0 \/ a = 1 \/ a = 2 \/ a = 3.

(** The direction of an action, as the specification lists it: right, up,
    left, down. *)
Definition dir (a : Z) : array2 :=
  if a =? 0 then (1, 0)
  else if a =? 1 then (0, 1)
  else if a =? 2 then (-1, 0)
  else (0, -1).

(** A position of the [n] x [n] grid. *)
Definition in_grid (n : Z) (p : array2) : Prop :=
  0 <= p.1 <= n - 1 /\ 0 <= p.2 <= n - 1.

(** The Manhattan distance of two positions. *)
Definition manhattan (p q : array2) : Z :=
  Z.abs (p.1 - q.1) + Z.abs (p.2 - q.2).

(** The clamp of the specification, on unbounded integers. *)
Definition clamp (x lo hi : Z) : Z :=
  if x <? lo then lo else if hi <? x then hi else x.

(** ** Notions used in the statements *)

Section Notions.

Context `{L : Library}.

(** The state [step] leaves behind for a valid action. *)
Definition moved (a : Z) (self : GridWorldEnv) : GridWorldEnv :=
  set_agent_location
    (clip (array_add (_agent_location self) (dir a)) 0 (size self - 1)) self.

(** The move of the specification: the direction is added on unbounded
    integers, then each coordinate is clamped to [0, size - 1]. *)
Definition clamped_move (a : Z) (self : GridWorldEnv)
  : array2 :=
  (clamp ((_agent_location self).1 + (dir a).1) 0 (size self - 1),
   clamp ((_agent_location self).2 + (dir a).2) 0 (size self - 1)).

(** What holds of the positions from a reset on: the grid has at least two
    cells a side, fits the integer type, and holds both positions. *)
Definition post_reset (self : GridWorldEnv) : Prop :=
  2 <= size self <= Int64.max_int + 1 /\
  in_grid (size self) (_agent_location self) /\
  in_grid (size self) (_target_location self).

(** A sequence of steps. *)
Fixpoint episode (actions : list Z) : M unit :=
  match actions with
  | [] => ret tt
  | a :: rest => step a ;;; episode rest
  end.

(** What [_get_obs] and [_get_info] return in a state. *)
Definition observed (self : GridWorldEnv) : Observation * Info :=
  ({| agent := _agent_location self; target := _target_location self |},
   {| distance :=
        linalg_norm_ord1
          (array_sub (_agent_location self) (_target_location self)) |}).

(** An observation and info that some call of [reset] or [step] returns. *)
Definition returned (obs : Observation) (info : Info)
  : Prop :=
  (exists fuel entropy seed self self',
     reset fuel entropy seed self = (Ok (obs, info), self')) \/
  (exists a self reward terminated truncated self',
     step a self = (Ok (obs, reward, terminated, truncated, info), self')).

(** Two environments of one size that hold the same generator. *)
Definition seeded_alike (s1 s2 : GridWorldEnv) : Prop :=
  size s1 = size s2 /\
  _np_random s1 = _np_random s2 /\
  is_Some (_np_random s1).

(** Two outcomes that cannot be told apart: the same value and states
    alike with the same positions, the same exception, or no return. *)
Definition agree {A} (o1 o2 : result A * GridWorldEnv) : Prop :=
  match o1.1, o2.1 with
  | Ok a, Ok b =>
      a = b /\ seeded_alike o1.2 o2.2 /\
      _agent_location o1.2 = _agent_location o2.2 /\
      _target_location o1.2 = _target_location o2.2
  | Raise x, Raise y => x = y
  | Diverge, Diverge => True
  | _, _ => False
  end.

(** The action that walks back: left for right, down for up. *)
Definition opposite (a : Z) : Z := (a + 2) `mod` 4.

(** The actions that walk from coordinate [from] to coordinate [to]. *)
Definition walk (from to forward backward : Z) : list Z :=
  if from <=? to then replicate (Z.to_nat (to - from)) forward
  else replicate (Z.to_nat (from - to)) backward.

(** A shortest route from [p] to [q]: along x, then along y. *)
Definition route (p q : array2) : list Z :=
  walk p.1 q.1 0 2 ++ walk p.2 q.2 1 3.

(** A position within the bounds a [Box] declares. *)
Definition in_box (b : Box) (p : array2) : Prop :=
  low b <= p.1 <= high b /\ low b <= p.2 <= high b.

(** An observation within the observation space of the environment. *)
Definition in_observation_space (self : GridWorldEnv) (obs : Observation)
  : Prop :=
  in_box (observation_space self).1 (agent obs) /\
  in_box (observation_space self).2 (target obs).

(** What the constructor declares: the size and the two spaces. *)
Definition declared (self : GridWorldEnv) : Z * (Box * Box) * Z :=
  (size self, observation_space self, action_space self).

(** The state but for the agent's position. *)
Definition frame (self : GridWorldEnv)
  : Z * array2 * (Box * Box) * Z * option Generator :=
  (size self, _target_location self, observation_space self,
   action_space self, _np_random self).

End Notions.

(** ** A concrete library

    A generator that replays a script of draws, reduced into the requested
    range.  It instantiates [Library] for the examples below. *)

Module Replay.

Definition script (seed : Z) : list array2 :=
  [(seed, 0); (seed + 1, seed)].

Definition seeding (seed : Z) : option (list array2) :=
  if 0 <=? seed then Some (script seed) else None.

Definition draw (g : list array2) (low high : Z)
  : option (array2 * list array2) :=
  if (Int64.min_int <=? low) && (low <? high) && (high <=? Int64.max_int + 1)
  then
    let p := hd (0, 0) g in
    Some ((low + p.1 `mod` (high - low), low + p.2 `mod` (high - low)), tl g)
  else None.

Lemma draw_range g low high p g' :
  draw g low high = Some (p, g') ->
  Int64.min_int <= low /\ high <= Int64.max_int + 1 /\
  low <= p.1 < high /\ low <= p.2 < high.
Proof.
  unfold draw. case_match eqn:Hc; [|discriminate].
  apply andb_prop in Hc as [Hc Hhi]. apply andb_prop in Hc as [Hlo Hlt].
  apply Z.leb_le in Hlo, Hhi. apply Z.ltb_lt in Hlt.
  intros [= <- _]; cbn [fst snd].
  pose proof (Z.mod_pos_bound (hd (0, 0) g).1 (high - low)).
  pose proof (Z.mod_pos_bound (hd (0, 0) g).2 (high - low)).
  lia.
Qed.

Definition box (low high : Z) : bool := low <=? high.

Lemma box_ordered high : 0 <= high <= Int64.max_int -> box 0 high = true.
Proof. intros ?. apply Z.leb_le. lia. Qed.

Lemma box_unordered high : high < 0 -> box 0 high = false.
Proof. intros ?. apply Z.leb_gt. lia. Qed.

#[export] Instance library : Library := {|
  Generator := list array2;
  seeding_np_random := seeding;
  integers := draw;
  integers_range := draw_range;
  Box_accepts := box;
  Box_accepts_ordered := box_ordered;
  Box_accepts_unordered := box_unordered
|}.

End Replay.

(** ** Concrete environments *)

Module Scenario.

Import Replay.

(** The generator a fresh environment would get from the operating system;
    the resets below are seeded and do not use it. *)
Definition entropy : @Generator library := [].

(** A grid of side 5 with the agent one step left of the target. *)
Definition near_target : GridWorldEnv :=
  {| size := 5;
     _agent_location := (2, 2);
     _target_location := (3, 2);
     observation_space :=
       ({| low := 0; high := 4 |}, {| low := 0; high := 4 |});
     action_space := 4;
     _np_random := Some [] |}.

(** The same grid once the agent has reached the target. *)
Definition on_target : GridWorldEnv :=
  {| size := 5;
     _agent_location := (3, 2);
     _target_location := (3, 2);
     observation_space :=
       ({| low := 0; high := 4 |}, {| low := 0; high := 4 |});
     action_space := 4;
     _np_random := Some [] |}.

(** A grid of side 5 whose generator will repeat its first draw. *)
Definition repeating : GridWorldEnv :=
  {| size := 5;
     _agent_location := (4, 4);
     _target_location := (0, 3);
     observation_space :=
       ({| low := 0; high := 4 |}, {| low := 0; high := 4 |});
     action_space := 4;
     _np_random := Some [(1, 1); (6, 1); (2, 3)] |}.

(** The same grid and generator, with the positions elsewhere. *)
Definition repeating_elsewhere : GridWorldEnv :=
  {| size := 5;
     _agent_location := (0, 2);
     _target_location := (3, 3);
     observation_space :=
       ({| low := 0; high := 4 |}, {| low := 0; high := 4 |});
     action_space := 4;
     _np_random := Some [(1, 1); (6, 1); (2, 3)] |}.

(** A grid of side 5 with the agent in the corner (0, 0). *)
Definition corner : GridWorldEnv :=
  {| size := 5;
     _agent_location := (0, 0);
     _target_location := (1, 0);
     observation_space :=
       ({| low := 0; high := 4 |}, {| low := 0; high := 4 |});
     action_space := 4;
     _np_random := Some [] |}.

(** The environment [__init__ n] builds when the spaces are accepted. *)
Definition fresh (n : Z) : GridWorldEnv :=
  {| size := n;
     _agent_location := (-1, -1);
     _target_location := (-1, -1);
     observation_space :=
       ({| low := 0; high := n - 1 |}, {| low := 0; high := n - 1 |});
     action_space := 4;
     _np_random := None |}.

(** The widest grid the integer type admits, with the agent on its last
    column: the state after [reset] with seed 2^63 - 1. *)
Definition widest : GridWorldEnv :=
  {| size := 2 ^ 63;
     _agent_location := (2 ^ 63 - 1, 0);
     _target_location := (0, 2 ^ 63 - 1);
     observation_space :=
       ({| low := 0; high := 2 ^ 63 - 1 |}, {| low := 0; high := 2 ^ 63 - 1 |});
     action_space := 4;
     _np_random := Some [] |}.

(** A grid of side 2^60 with the positions more than 2^53 apart: the state
    after [reset] with seed 2^53. *)
Definition far_apart : GridWorldEnv :=
  {| size := 2 ^ 60;
     _agent_location := (2 ^ 53, 0);
     _target_location := (2 ^ 53 + 1, 2 ^ 53);
     observation_space :=
       ({| low := 0; high := 2 ^ 60 - 1 |}, {| low := 0; high := 2 ^ 60 - 1 |});
     action_space := 4;
     _np_random := Some [] |}.

End Scenario.

(** ** Arithmetic facts *)

Lemma wrap64_small z :
  Int64.min_int <= z <= Int64.max_int -> Int64.wrap64 z = z.
Proof.
  unfold Int64.min_int, Int64.max_int, Int64.wrap64. intros Hz.
  rewrite Z.mod_small; lia.
Qed.

Lemma clip1_bounds x hi : 0 <= hi -> 0 <= clip1 x 0 hi <= hi.
Proof. unfold clip1. lia. Qed.

Lemma clip1_clamp x lo hi : lo <= hi -> clip1 x lo hi = clamp x lo hi.
Proof.
  unfold clip1, clamp. intros Hle.
  destruct (Z.ltb_spec x lo), (Z.ltb_spec hi x); lia.
Qed.

Lemma array_equal_true a b : array_equal a b = true <-> a = b.
Proof.
  destruct a as [a1 a2], b as [b1 b2]. unfold array_equal; cbn [fst snd].
  rewrite andb_true_iff, !Z.eqb_eq. split; [intros [-> ->] | intros [= -> ->]]; done.
Qed.

Lemma array_equal_false a b : array_equal a b = false <-> a <> b.
Proof.
  rewrite <- array_equal_true. destruct (array_equal a b); split; congruence.
Qed.

Lemma float64_of_Z_exact z :
  Z.abs z <= 2 ^ 53 -> Float64.float64_of_Z z = z.
Proof.
  intros Hz. unfold Float64.float64_of_Z.
  destruct (Z.leb_spec (Z.log2 (Z.abs z) - 52) 0) as [|He]; [done|].
  assert (Hlog : Z.log2 (Z.abs z) = 53).
  { pose proof (Z.log2_le_mono (Z.abs z) (2 ^ 53) Hz) as Hm.
    rewrite Z.log2_pow2 in Hm by lia. lia. }
  assert (Habs : Z.abs z = 2 ^ 53).
  { assert (0 < Z.abs z) as Hpos by (destruct (Z.abs z) eqn:?; simpl in *; lia).
    pose proof (Z.log2_spec (Z.abs z) Hpos) as Hs. rewrite Hlog in Hs. lia. }
  assert (Hz2 : z = 2 ^ 53 \/ z = - 2 ^ 53) by lia.
  destruct Hz2 as [-> | ->]; reflexivity.
Qed.

Lemma float64_of_Z_nonneg z : 0 <= z -> 0 <= Float64.float64_of_Z z.
Proof.
  intros Hz. unfold Float64.float64_of_Z.
  destruct (Z.leb_spec (Z.log2 (Z.abs z) - 52) 0) as [|He]; [done|].
  set (e := Z.log2 (Z.abs z) - 52) in *.
  assert (0 < 2 ^ e) as Hp by (apply Z.pow_pos_nonneg; lia).
  assert (0 <= Z.abs z / 2 ^ e) as Hq by (apply Z.div_pos; lia).
  assert (0 <= Z.sgn z) as Hs by lia.
  apply Z.mul_nonneg_nonneg; [done|].
  apply Z.mul_nonneg_nonneg; [|lia].
  destruct (_ || _); lia.
Qed.

(** The rounding is that of IEEE 754 binary64: at the first integers that
    are not floats, at ties to either side, at a negative number and at the
    largest coordinate, it agrees with the Standard Library's
    specification; and so does the sum. *)
Example float64_of_Z_is_binary64 :
  Forall (fun z => Float64.Z_of_binary64 (Float64.binary64_of_Z z)
                   = Float64.float64_of_Z z)
    [0; 1; -1; 5; 2 ^ 53; 2 ^ 53 + 1; 2 ^ 53 + 2; 2 ^ 53 + 3;
     2 ^ 54 + 2; 2 ^ 54 + 6; - (2 ^ 54 + 6); 2 ^ 60 + 129; 2 ^ 63 - 1].
Proof. repeat constructor. Qed.

Example float64_add_is_binary64 :
  Forall (fun ab : Z * Z =>
            Float64.Z_of_binary64
              (Float64.binary64_add (Float64.binary64_of_Z ab.1)
                                    (Float64.binary64_of_Z ab.2))
            = Float64.add ab.1 ab.2)
    [(0, 0); (1, 2); (2 ^ 53, 1); (2 ^ 53, 3); (2 ^ 53 + 2, 1);
     (2 ^ 63, 2 ^ 63); (2 ^ 62, 2 ^ 9); (2 ^ 62, 2 ^ 9 + 2 ^ 10)].
Proof. repeat constructor. Qed.

(** The norm of a difference that the integers and the floats both
    represent exactly. *)
Lemma linalg_norm_ord1_exact p q :
  manhattan p q <= 2 ^ 53 ->
  linalg_norm_ord1 (array_sub p q) = manhattan p q.
Proof.
  unfold manhattan, linalg_norm_ord1, array_sub, Int64.sub,
    Float64.add, Float64.abs. cbn [fst snd]. intros Hd.
  rewrite !wrap64_small by (unfold Int64.min_int, Int64.max_int; lia).
  rewrite !(float64_of_Z_exact (_ - _)) by lia.
  apply float64_of_Z_exact. lia.
Qed.

Lemma linalg_norm_ord1_nonneg v : 0 <= linalg_norm_ord1 v.
Proof.
  unfold linalg_norm_ord1, Float64.add, Float64.abs.
  apply float64_of_Z_nonneg. lia.
Qed.

(** ** The direction table *)

Lemma direction_valid a :
  valid_action a -> _action_to_direction !! a = Some (dir a).
Proof. intros [-> | [-> | [-> | ->]]]; reflexivity. Qed.

Lemma direction_invalid a :
  ~ valid_action a -> _action_to_direction !! a = None.
Proof.
  unfold valid_action, _action_to_direction. intros Ha.
  rewrite !lookup_insert_ne by lia.
  apply lookup_singleton_ne. lia.
Qed.
Section StepFacts.

Context `{L : Library}.

(** What [step] computes for an action of the table. *)
Lemma step_valid a self :
  valid_action a ->
  step a self =
  (Ok ({| agent := _agent_location (moved a self);
          target := _target_location self |},
       if array_equal (_agent_location (moved a self)) (_target_location self)
       then 1 else 0,
       array_equal (_agent_location (moved a self)) (_target_location self),
       false,
       {| distance :=
            linalg_norm_ord1
              (array_sub (_agent_location (moved a self))
                         (_target_location self)) |}),
   moved a self).
Proof.
  intros Ha. unfold step, bind, getitem.
  rewrite (direction_valid a Ha). reflexivity.
Qed.

Lemma step_invalid a self :
  ~ valid_action a -> step a self = (Raise (KeyError a), self).
Proof.
  intros Ha. unfold step, bind, getitem.
  rewrite (direction_invalid a Ha). reflexivity.
Qed.

Lemma valid_action_dec a : {valid_action a} + {~ valid_action a}.
Proof.
  unfold valid_action.
  destruct (decide (a = 0)), (decide (a = 1)), (decide (a = 2)),
    (decide (a = 3)); (left; tauto) || (right; tauto).
Defined.

(** One coordinate of the move, when the sum does not wrap. *)
Lemma move_coordinate x d n :
  0 <= x <= n - 1 -> n <= Int64.max_int -> -1 <= d <= 1 ->
  clip1 (Int64.add x d) 0 (n - 1) = clamp (x + d) 0 (n - 1).
Proof.
  intros Hx Hn Hd. unfold Int64.add.
  rewrite wrap64_small by (unfold Int64.min_int, Int64.max_int in *; lia).
  apply clip1_clamp. lia.
Qed.

Lemma dir_unit a : -1 <= (dir a).1 <= 1 /\ -1 <= (dir a).2 <= 1.
Proof. unfold dir. repeat case_match; cbn; lia. Qed.

End StepFacts.

(** ** Facts about [reset] and episodes *)

Section ResetFacts.

Context `{L : Library}.

(** A draw changes the generator only, and lies in the requested range. *)
Lemma integers_returns entropy low high self p self' :
  np_random_integers entropy low high self = (Ok p, self') ->
  (exists g, self' = set_np_random g self) /\
  high <= Int64.max_int + 1 /\
  low <= p.1 < high /\ low <= p.2 < high.
Proof.
  unfold np_random_integers, np_random, bind, get.
  destruct (_np_random self) as [g |] eqn:Eg; cbn.
  - destruct (integers g low high) as [[q g'] |] eqn:Ei; [|discriminate].
    cbn. intros [= <- <-]. pose proof (integers_range _ _ _ _ _ Ei) as Hr.
    split; [by exists g' | tauto].
  - destruct (integers entropy low high) as [[q g'] |] eqn:Ei; [|discriminate].
    cbn. intros [= <- <-]. pose proof (integers_range _ _ _ _ _ Ei) as Hr.
    split; [by exists g' | tauto].
Qed.

(** One turn of the loop. *)
Lemma resample_unfold fuel entropy self :
  resample fuel entropy self =
  if array_equal (_target_location self) (_agent_location self) then
    match fuel with
    | O => (Diverge, self)
    | S fuel' =>
        match np_random_integers entropy 0 (size self) self with
        | (Ok p, s1) => resample fuel' entropy (set_target_location p s1)
        | (Raise x, s1) => (Raise x, s1)
        | (Diverge, s1) => (Diverge, s1)
        end
    end
  else (Ok tt, self).
Proof.
  destruct fuel; cbn [resample]; unfold bind at 1, get;
    destruct (array_equal _ _); reflexivity.
Qed.

(** The loop keeps the size and the agent; it returns only with a target
    off the agent, which is then either the old one or a draw. *)
Lemma resample_returns fuel entropy self u self' :
  resample fuel entropy self = (Ok u, self') ->
  size self' = size self /\
  _agent_location self' = _agent_location self /\
  _agent_location self' <> _target_location self' /\
  (_target_location self' = _target_location self \/
   size self <= Int64.max_int + 1 /\
   in_grid (size self) (_target_location self')).
Proof.
  revert self. induction fuel as [| fuel IH]; intros self; cbn [resample];
    unfold bind at 1, get;
    destruct (array_equal (_target_location self) (_agent_location self))
      eqn:Eq.
  - discriminate.
  - intros [= <- <-]. apply array_equal_false in Eq. auto.
  - unfold bind at 1.
    destruct (np_random_integers entropy 0 (size self) self)
      as [[p | x |] s1] eqn:Ed; try discriminate.
    destruct (integers_returns entropy 0 (size self) self p s1 Ed)
      as ([g ->] & Hmax & Hp1 & Hp2).
    unfold bind at 1, modify. intros Hrec.
    destruct (IH _ Hrec) as (Hs & Ha & Hne & Ht). cbn in Hs, Ha, Ht.
    repeat split; try done.
    right. split; [done|].
    destruct Ht as [-> | [_ Hg]]; [|done].
    unfold in_grid; cbn. lia.
  - intros [= <- <-]. apply array_equal_false in Eq. auto.
Qed.

(** Fuel only bounds the loop: a run that returns returns the same with
    more fuel. *)
Lemma resample_fuel_mono fuel entropy self u self' :
  resample fuel entropy self = (Ok u, self') ->
  resample (S fuel) entropy self = (Ok u, self').
Proof.
  revert self. induction fuel as [| fuel IH]; intros self;
    rewrite (resample_unfold (S _)), (resample_unfold _ entropy self);
    destruct (array_equal _ _); try done.
  destruct (np_random_integers entropy 0 (size self) self)
    as [[p | x |] s1]; try done.
  apply IH.
Qed.

(** [reset], one call after the other. *)
Lemma reset_unfold fuel entropy seed self :
  reset fuel entropy seed self =
  match super_reset seed self with
  | (Ok _, s0) =>
      match np_random_integers entropy 0 (size s0) s0 with
      | (Ok p, s1) =>
          match resample fuel entropy
                  (set_target_location p (set_agent_location p s1)) with
          | (Ok _, s2) => (Ok (observed s2), s2)
          | (Raise x, s2) => (Raise x, s2)
          | (Diverge, s2) => (Diverge, s2)
          end
      | (Raise x, s1) => (Raise x, s1)
      | (Diverge, s1) => (Diverge, s1)
      end
  | (Raise x, s0) => (Raise x, s0)
  | (Diverge, s0) => (Diverge, s0)
  end.
Proof.
  unfold reset. unfold bind at 1.
  destruct (super_reset seed self) as [[[] | x |] s0]; reflexivity.
Qed.

(** What a reset that returns has established. *)
Lemma reset_returns fuel entropy seed self r self' :
  reset fuel entropy seed self = (Ok r, self') ->
  size self' = size self /\
  2 <= size self <= Int64.max_int + 1 /\
  in_grid (size self) (_agent_location self') /\
  in_grid (size self) (_target_location self') /\
  _agent_location self' <> _target_location self' /\
  r = ({| agent := _agent_location self';
          target := _target_location self' |},
       {| distance :=
            linalg_norm_ord1
              (array_sub (_agent_location self')
                         (_target_location self')) |}).
Proof.
  unfold reset. unfold bind at 1.
  destruct (super_reset seed self) as [[[] | x |] s0] eqn:E0; try discriminate.
  assert (Hs0 : size s0 = size self).
  { unfold super_reset in E0. destruct seed as [s |].
    - destruct (seeding_np_random s); inversion E0; done.
    - inversion E0; done. }
  unfold bind at 1, get. unfold bind at 1.
  destruct (np_random_integers entropy 0 (size s0) s0)
    as [[p | x |] s1] eqn:E1; try discriminate.
  destruct (integers_returns entropy 0 (size s0) s0 p s1 E1)
    as ([g ->] & Hmax & Hp1 & Hp2).
  unfold bind at 1, modify. unfold bind at 1, get. unfold bind at 1.
  unfold bind at 1.
  match goal with
  | |- context [resample fuel entropy ?s] =>
      destruct (resample fuel entropy s) as [[[] | x |] s2] eqn:E2;
        try discriminate;
      destruct (resample_returns _ _ _ _ _ E2) as (Hs & Ha & Hne & Ht)
  end.
  cbn in Hs, Ha, Ht. unfold _get_obs, _get_info, bind, get, ret.
  intros [= <- <-].
  assert (Hag : in_grid (size self) (_agent_location s2)).
  { rewrite Ha, <- Hs0. unfold in_grid. lia. }
  assert (Htg : in_grid (size self) (_target_location s2)).
  { destruct Ht as [Ht | [_ Ht]]; [| by rewrite <- Hs0].
    rewrite Ht, <- Ha. done. }
  assert (Hne' : _agent_location s2 <> _target_location s2) by done.
  assert (Hsz : 2 <= size self).
  { destruct (_agent_location s2) as [a1 a2], (_target_location s2) as [t1 t2].
    unfold in_grid in Hag, Htg; cbn in Hag, Htg.
    destruct (decide (a1 = t1)), (decide (a2 = t2)); subst; try lia.
    congruence. }
  split; [lia|]. split; [lia|]. done.
Qed.

Lemma reset_fuel_mono fuel entropy seed self r self' :
  reset fuel entropy seed self = (Ok r, self') ->
  reset (S fuel) entropy seed self = (Ok r, self').
Proof.
  rewrite !reset_unfold.
  destruct (super_reset seed self) as [[[] | x |] s0]; try done.
  destruct (np_random_integers entropy 0 (size s0) s0)
    as [[p | x |] s1]; try done.
  destruct (resample fuel entropy _) as [[[] | x |] s2] eqn:E2; try done.
  by rewrite (resample_fuel_mono _ _ _ _ _ E2).
Qed.

Lemma reset_post_reset fuel entropy seed self r self' :
  reset fuel entropy seed self = (Ok r, self') -> post_reset self'.
Proof.
  intros Hr. destruct (reset_returns _ _ _ _ _ _ Hr) as (Hs & Hn & Ha & Ht & _).
  unfold post_reset. rewrite Hs. done.
Qed.

Lemma moved_post_reset a self : post_reset self -> post_reset (moved a self).
Proof.
  intros (Hn & Ha & Ht). unfold post_reset, moved, in_grid; cbn.
  pose proof (clip1_bounds (Int64.add (_agent_location self).1 (dir a).1)
                (size self - 1)).
  pose proof (clip1_bounds (Int64.add (_agent_location self).2 (dir a).2)
                (size self - 1)).
  unfold in_grid in Ht. lia.
Qed.

(** An episode of valid actions keeps the invariant, and every step of it
    returns. *)
Lemma episode_post_reset actions self :
  post_reset self -> Forall valid_action actions ->
  exists self',
    episode actions self = (Ok tt, self') /\
    post_reset self' /\ size self' = size self /\
    _target_location self' = _target_location self.
Proof.
  intros Hp Hv. revert self Hp.
  induction Hv as [| a rest Ha _ IH]; intros self Hp.
  - exists self. done.
  - cbn [episode]. unfold bind. rewrite (step_valid a self Ha).
    destruct (IH (moved a self) (moved_post_reset a self Hp))
      as (s' & He & Hp' & Hs & Ht).
    exists s'. done.
Qed.

(** Two positions of a grid of size up to 2^52 are at most 2^53 apart, so
    their distance is a float. *)
Lemma manhattan_in_grid n p q :
  in_grid n p -> in_grid n q -> n <= 2 ^ 52 -> manhattan p q <= 2 ^ 53.
Proof. unfold in_grid, manhattan. lia. Qed.

Lemma reset_distance_exact fuel entropy seed self obs info self' :
  size self <= 2 ^ 52 ->
  reset fuel entropy seed self = (Ok (obs, info), self') ->
  distance info = manhattan (agent obs) (target obs).
Proof.
  intros Hn Hr.
  destruct (reset_returns _ _ _ _ _ _ Hr)
    as (_ & _ & Ha & Ht & _ & [= -> ->]).
  cbn [distance agent target]. apply linalg_norm_ord1_exact.
  exact (manhattan_in_grid _ _ _ Ha Ht Hn).
Qed.

End ResetFacts.

(** ** Two environments run side by side *)

Section Determinism.

Context `{L : Library}.

(** A draw from the same generator: the same pair, or the same failure.
    The entropy arguments play no part, since both hold a generator. *)
Lemma integers_alike e1 e2 low high s1 s2 :
  seeded_alike s1 s2 ->
  match np_random_integers e1 low high s1,
        np_random_integers e2 low high s2 with
  | (Ok p1, t1), (Ok p2, t2) =>
      p1 = p2 /\ seeded_alike t1 t2 /\
      _agent_location t1 = _agent_location s1 /\
      _target_location t1 = _target_location s1 /\
      _agent_location t2 = _agent_location s2 /\
      _target_location t2 = _target_location s2
  | (Raise x, _), (Raise y, _) => x = y
  | (Diverge, _), (Diverge, _) => True
  | _, _ => False
  end.
Proof.
  intros (Hs & Hg & [g Hg1]).
  assert (Hg2 : _np_random s2 = Some g) by congruence.
  unfold np_random_integers, np_random, bind, get. rewrite Hg1, Hg2.
  cbn. destruct (integers g low high) as [[p g'] |]; [|done]. cbn.
  repeat split; done.
Qed.

Lemma resample_alike fuel e1 e2 s1 s2 :
  seeded_alike s1 s2 ->
  _agent_location s1 = _agent_location s2 ->
  _target_location s1 = _target_location s2 ->
  agree (resample fuel e1 s1) (resample fuel e2 s2).
Proof.
  revert s1 s2. induction fuel as [| fuel IH]; intros s1 s2 Hs Ha Ht;
    rewrite (resample_unfold _ e1 s1), (resample_unfold _ e2 s2);
    rewrite Ha, Ht; destruct (array_equal _ _); try done.
  pose proof (integers_alike e1 e2 0 (size s1) s1 s2 Hs) as Hd.
  destruct Hs as (Hsz & Hs). rewrite <- Hsz.
  destruct (np_random_integers e1 0 (size s1) s1) as [[p1 | x1 |] t1],
    (np_random_integers e2 0 (size s1) s2) as [[p2 | x2 |] t2]; try done.
  destruct Hd as (-> & Hst & Ha1 & _ & Ha2 & _).
  apply IH; cbn; [done | congruence | done].
Qed.

(** Two seeded resets on environments of one size agree, whatever the two
    environments held before. *)
Lemma reset_alike fuel e1 e2 seed s1 s2 :
  size s1 = size s2 ->
  agree (reset fuel e1 (Some seed) s1) (reset fuel e2 (Some seed) s2).
Proof.
  intros Hsz. rewrite !reset_unfold. unfold super_reset.
  destruct (seeding_np_random seed) as [g |]; [|done].
  unfold modify.
  assert (Hs : seeded_alike (set_np_random g s1) (set_np_random g s2))
    by (repeat split; cbn; eauto).
  pose proof (integers_alike e1 e2 0 (size (set_np_random g s1)) _ _ Hs) as Hd.
  change (size (set_np_random g s2)) with (size s2). rewrite <- Hsz.
  change (size (set_np_random g s1)) with (size s1) in *.
  destruct (np_random_integers e1 0 (size s1) (set_np_random g s1))
    as [[p1 | x1 |] t1],
    (np_random_integers e2 0 (size s1) (set_np_random g s2))
    as [[p2 | x2 |] t2]; try done.
  destruct Hd as (-> & Hst & _).
  pose proof (resample_alike fuel e1 e2
                (set_target_location p2 (set_agent_location p2 t1))
                (set_target_location p2 (set_agent_location p2 t2))
                Hst eq_refl eq_refl) as Hr.
  unfold agree in Hr |- *.
  destruct (resample fuel e1 _) as [[[] | y1 |] u1],
    (resample fuel e2 _) as [[[] | y2 |] u2]; cbn in Hr |- *; try done.
  destruct Hr as (_ & Hsu & Hau & Htu).
  unfold observed. rewrite Hau, Htu. done.
Qed.

End Determinism.

(** ** The claims *)

(** C1.  In every state after a reset and for every action of {0,1,2,3},
    [step] returns; [terminated] is true exactly when the agent's position
    after the move equals the target's in both coordinates; [reward] is 1
    when terminated and 0 otherwise; and [truncated] is false. *)
Theorem step_terminated_reward `{L : Library} (a : Z) (self : GridWorldEnv) :
  post_reset self -> valid_action a ->
  exists obs reward terminated info self',
    step a self = (Ok (obs, reward, terminated, false, info), self') /\
    agent obs = _agent_location self' /\
    target obs = _target_location self' /\
    (terminated = true <->
     (_agent_location self').1 = (_target_location self').1 /\
     (_agent_location self').2 = (_target_location self').2) /\
    reward = (if terminated then 1 else 0).
Proof.
  intros _ Ha. rewrite (step_valid a self Ha).
  eexists _, _, _, _, _. split; [reflexivity|].
  split; [reflexivity|]. split; [reflexivity|]. split; [|reflexivity].
  rewrite array_equal_true. cbn [moved set_agent_location _target_location].
  destruct (_agent_location _) as [x y], (_target_location self) as [tx ty].
  cbn [fst snd]. split; [intros [= -> ->]; done | intros [-> ->]; done].
Qed.

Lemma step_terminated_reward_witness :
  post_reset Scenario.near_target /\
  valid_action 0 /\
  exists obs reward terminated info self',
    step 0 Scenario.near_target
    = (Ok (obs, reward, terminated, false, info), self') /\
    agent obs = _agent_location self' /\
    target obs = _target_location self' /\
    (terminated = true <->
     (_agent_location self').1 = (_target_location self').1 /\
     (_agent_location self').2 = (_target_location self').2) /\
    reward = (if terminated then 1 else 0).
Proof.
  assert (Hp : post_reset Scenario.near_target).
  { unfold post_reset, in_grid, Int64.max_int; cbn. lia. }
  assert (Ha : valid_action 0) by (left; reflexivity).
  split; [exact Hp|]. split; [exact Ha|].
  exact (step_terminated_reward 0 Scenario.near_target Hp Ha).
Defined.

(** The scenario of the specification: from (2, 2) with the target at
    (3, 2), moving right terminates with reward 1. *)
Example step_reaches_target :
  (step 0 Scenario.near_target).1
  = Ok ({| agent := (3, 2); target := (3, 2) |}, 1, true, false,
        {| distance := 0 |}).
Proof. reflexivity. Qed.

(** C2, as stated, fails on the widest grid.  With size 2^63 a reset can put
    the agent on the last column, x = 2^63 - 1 (here the reset with seed
    2^63 - 1).  Moving right adds 1 in 64-bit arithmetic, which wraps to
    -2^63, and the clamp then yields column 0, where the specification's
    clamp of x + 1 yields 2^63 - 1. *)
Lemma step_wraps_on_widest_grid :
  (reset 1 Scenario.entropy (Some (2 ^ 63 - 1)) (Scenario.fresh (2 ^ 63))).1
  = Ok ({| agent := (2 ^ 63 - 1, 0); target := (0, 2 ^ 63 - 1) |},
        {| distance := 2 ^ 64 |}) /\
  (reset 1 Scenario.entropy (Some (2 ^ 63 - 1)) (Scenario.fresh (2 ^ 63))).2
  = Scenario.widest /\
  post_reset Scenario.widest /\
  valid_action 0 /\
  _agent_location (step 0 Scenario.widest).2 = (0, 0) /\
  clamped_move 0 Scenario.widest = (2 ^ 63 - 1, 0) /\
  _agent_location (step 0 Scenario.widest).2
  <> clamped_move 0 Scenario.widest.
Proof.
  split; [reflexivity|].
  split; [reflexivity|].
  split.
  { unfold post_reset, in_grid, Int64.max_int; cbn. lia. }
  split; [left; reflexivity|].
  split; [reflexivity|].
  split; [reflexivity|].
  vm_compute. discriminate.
Qed.

(** C2, amended.  In every state after a reset whose grid is narrower than
    2^63, and for every action of {0,1,2,3}, [step] returns and sets the
    agent's position to the clamp to [0, size - 1] of each coordinate of
    position + direction, the directions being (+1,0), (0,+1), (-1,0),
    (0,-1) for the actions 0, 1, 2, 3; in particular, from (0, 0) the
    actions 2 and 3 leave the position where it is. *)
Theorem step_moves_and_clamps `{L : Library} (a : Z) (self : GridWorldEnv) :
  post_reset self -> size self <= Int64.max_int -> valid_action a ->
  (exists r, (step a self).1 = Ok r) /\
  _action_to_direction !! a = Some (dir a) /\
  dir 0 = (1, 0) /\ dir 1 = (0, 1) /\ dir 2 = (-1, 0) /\ dir 3 = (0, -1) /\
  _agent_location (step a self).2 = clamped_move a self /\
  (_agent_location self = (0, 0) -> a = 2 \/ a = 3 ->
   _agent_location (step a self).2 = (0, 0)).
Proof.
  intros (Hn & [Hx Hy] & _) Hmax Ha.
  assert (Hmove : _agent_location (step a self).2 = clamped_move a self).
  { rewrite (step_valid a self Ha).
    cbn [snd moved set_agent_location _agent_location].
    unfold clamped_move, clip, array_add. cbn [fst snd].
    destruct (dir_unit a) as [Hd1 Hd2].
    rewrite !move_coordinate by done. reflexivity. }
  split; [rewrite (step_valid a self Ha); eauto|].
  split; [exact (direction_valid a Ha)|].
  do 4 (split; [reflexivity|]).
  split; [exact Hmove|].
  intros H0 Hleft. rewrite Hmove. unfold clamped_move. rewrite H0.
  assert (Hclamp : clamp (0 + -1) 0 (size self - 1) = 0
                   /\ clamp (0 + 0) 0 (size self - 1) = 0).
  { unfold clamp.
    destruct (Z.ltb_spec (0 + -1) 0), (Z.ltb_spec (0 + 0) 0),
      (Z.ltb_spec (size self - 1) (0 + 0)); lia. }
  destruct Hclamp as [Hc1 Hc0].
  destruct Hleft as [-> | ->].
  - change (dir 2) with ((-1, 0) : array2). cbn [fst snd].
    by rewrite Hc1, Hc0.
  - change (dir 3) with ((0, -1) : array2). cbn [fst snd].
    by rewrite Hc1, Hc0.
Qed.

Lemma step_moves_and_clamps_witness :
  post_reset Scenario.corner /\
  size Scenario.corner <= Int64.max_int /\
  valid_action 2 /\
  _agent_location (step 2 Scenario.corner).2 = clamped_move 2 Scenario.corner /\
  _agent_location (step 2 Scenario.corner).2 = (0, 0).
Proof.
  assert (Hp : post_reset Scenario.corner).
  { unfold post_reset, in_grid, Int64.max_int; cbn. lia. }
  assert (Hs : size Scenario.corner <= Int64.max_int).
  { unfold Int64.max_int; cbn. lia. }
  assert (Ha : valid_action 2) by (right; right; left; reflexivity).
  destruct (step_moves_and_clamps 2 Scenario.corner Hp Hs Ha)
    as (_ & _ & _ & _ & _ & _ & Hmove & Hcorner).
  split; [exact Hp|]. split; [exact Hs|]. split; [exact Ha|].
  split; [exact Hmove|]. apply Hcorner; [reflexivity | left; reflexivity].
Defined.

(** C3.  On a grid of size at least 2, right after a reset that returns,
    the agent's position differs from the target's, in the state and in the
    observation returned.  (A reset returns only on such a grid, see
    [reset_returns].) *)
Theorem reset_positions_differ `{L : Library} (fuel : nat)
  (entropy : Generator) (seed : option Z) (self : GridWorldEnv)
  (r : Observation * Info) (self' : GridWorldEnv) :
  2 <= size self ->
  reset fuel entropy seed self = (Ok r, self') ->
  _agent_location self' <> _target_location self' /\
  agent r.1 <> target r.1.
Proof.
  intros _ Hr.
  destruct (reset_returns _ _ _ _ _ _ Hr) as (_ & _ & _ & _ & Hne & ->).
  done.
Qed.

Lemma reset_positions_differ_witness :
  2 <= size (Scenario.fresh 5) /\
  reset 1 Scenario.entropy (Some 0) (Scenario.fresh 5)
  = (Ok (observed Scenario.corner), Scenario.corner) /\
  _agent_location Scenario.corner <> _target_location Scenario.corner /\
  agent (observed Scenario.corner).1 <> target (observed Scenario.corner).1.
Proof.
  assert (Hn : 2 <= size (Scenario.fresh 5)) by (cbn; lia).
  assert (Hr : reset 1 Scenario.entropy (Some 0) (Scenario.fresh 5)
               = (Ok (observed Scenario.corner), Scenario.corner))
    by reflexivity.
  split; [exact Hn|]. split; [exact Hr|].
  exact (reset_positions_differ _ _ _ _ _ _ Hn Hr).
Defined.

(** C4.  On a grid of size at least 2, after a reset that returns and after
    any finite sequence of actions of {0,1,2,3} applied from there, every
    step of the sequence has returned and both coordinates of the agent and
    of the target lie in [0, size - 1].  The sequence is arbitrary, the
    empty one included, so this is the state right after the reset and
    after each step. *)
Theorem positions_stay_in_grid `{L : Library} (fuel : nat)
  (entropy : Generator) (seed : option Z) (self : GridWorldEnv)
  (r : Observation * Info) (self1 : GridWorldEnv) (actions : list Z) :
  2 <= size self ->
  reset fuel entropy seed self = (Ok r, self1) ->
  Forall valid_action actions ->
  exists self2,
    episode actions self1 = (Ok tt, self2) /\
    size self2 = size self /\
    in_grid (size self) (_agent_location self2) /\
    in_grid (size self) (_target_location self2).
Proof.
  intros _ Hr Hv.
  destruct (reset_returns _ _ _ _ _ _ Hr) as (Hs & _).
  destruct (episode_post_reset actions self1
              (reset_post_reset _ _ _ _ _ _ Hr) Hv)
    as (self2 & He & (_ & Ha & Ht) & Hs2 & _).
  exists self2. rewrite Hs2, Hs in *. done.
Qed.

Lemma positions_stay_in_grid_witness :
  2 <= size (Scenario.fresh 5) /\
  reset 1 Scenario.entropy (Some 0) (Scenario.fresh 5)
  = (Ok (observed Scenario.corner), Scenario.corner) /\
  Forall valid_action [2; 3; 0; 0; 1] /\
  exists self2,
    episode [2; 3; 0; 0; 1] Scenario.corner = (Ok tt, self2) /\
    size self2 = size (Scenario.fresh 5) /\
    in_grid (size (Scenario.fresh 5)) (_agent_location self2) /\
    in_grid (size (Scenario.fresh 5)) (_target_location self2).
Proof.
  assert (Hn : 2 <= size (Scenario.fresh 5)) by (cbn; lia).
  assert (Hr : reset 1 Scenario.entropy (Some 0) (Scenario.fresh 5)
               = (Ok (observed Scenario.corner), Scenario.corner))
    by reflexivity.
  assert (Hv : Forall valid_action [2; 3; 0; 0; 1])
    by (repeat constructor; unfold valid_action; lia).
  split; [exact Hn|]. split; [exact Hr|]. split; [exact Hv|].
  exact (positions_stay_in_grid _ _ _ _ _ _ _ Hn Hr Hv).
Defined.

(** C5.  [step] never changes the target: whatever the state and the
    action, the target after [step] is the target before it.  The two
    observers [_get_obs] and [_get_info] change nothing at all, so [reset]
    is the only method that assigns the target. *)
Theorem step_keeps_target `{L : Library} (a : Z) (self : GridWorldEnv) :
  _target_location (step a self).2 = _target_location self /\
  (_get_obs self).2 = self /\
  (_get_info self).2 = self.
Proof.
  split; [|split; reflexivity].
  destruct (valid_action_dec a) as [Ha | Ha].
  - rewrite (step_valid a self Ha). reflexivity.
  - rewrite (step_invalid a self Ha). reflexivity.
Qed.

(** C6.  [reset] is deterministic in the seed.  Two calls with the same
    integer seed on environments of the same size, whatever positions and
    generators they held before, have the same outcome: both return, with
    the same observation and info and the same two positions in the state,
    or both fail with the same exception, or neither leaves the loop. *)
Theorem reset_seed_deterministic `{L : Library} (fuel : nat)
  (entropy1 entropy2 : Generator) (seed : Z) (self1 self2 : GridWorldEnv) :
  size self1 = size self2 ->
  (reset fuel entropy1 (Some seed) self1).1
  = (reset fuel entropy2 (Some seed) self2).1 /\
  (forall r, (reset fuel entropy1 (Some seed) self1).1 = Ok r ->
     _agent_location (reset fuel entropy1 (Some seed) self1).2
     = _agent_location (reset fuel entropy2 (Some seed) self2).2 /\
     _target_location (reset fuel entropy1 (Some seed) self1).2
     = _target_location (reset fuel entropy2 (Some seed) self2).2).
Proof.
  intros Hsz.
  pose proof (reset_alike fuel entropy1 entropy2 seed self1 self2 Hsz) as H.
  unfold agree in H.
  destruct (reset fuel entropy1 (Some seed) self1) as [[r1 | x1 |] t1],
    (reset fuel entropy2 (Some seed) self2) as [[r2 | x2 |] t2];
    cbn [fst snd] in *; try done.
  - destruct H as (-> & _ & Ha & Ht). done.
  - subst. done.
Qed.

Lemma reset_seed_deterministic_witness :
  size Scenario.near_target = size (Scenario.fresh 5) /\
  (reset 1 Scenario.entropy (Some 7) Scenario.near_target).1
  = (reset 1 Scenario.entropy (Some 7) (Scenario.fresh 5)).1 /\
  _agent_location (reset 1 Scenario.entropy (Some 7) Scenario.near_target).2
  = _agent_location (reset 1 Scenario.entropy (Some 7) (Scenario.fresh 5)).2 /\
  _target_location (reset 1 Scenario.entropy (Some 7) Scenario.near_target).2
  = _target_location (reset 1 Scenario.entropy (Some 7) (Scenario.fresh 5)).2.
Proof.
  assert (Hs : size Scenario.near_target = size (Scenario.fresh 5))
    by reflexivity.
  destruct (reset_seed_deterministic 1 Scenario.entropy Scenario.entropy 7
              Scenario.near_target (Scenario.fresh 5) Hs) as [Ho Hp].
  split; [exact Hs|]. split; [exact Ho|].
  exact (Hp (observed (reset 1 Scenario.entropy (Some 7)
                         Scenario.near_target).2) eq_refl).
Defined.

(** C7, as stated, fails on wide grids.  The distance is computed in
    float64, which has 53 bits of precision.  On a grid of size 2^60 the
    reset with seed 2^53 puts the agent at (2^53, 0) and the target at
    (2^53 + 1, 2^53): the Manhattan distance is 2^53 + 1, the distance
    returned is 2^53. *)
Lemma distance_rounds_on_wide_grid :
  (reset 1 Scenario.entropy (Some (2 ^ 53)) (Scenario.fresh (2 ^ 60))).1
  = Ok ({| agent := (2 ^ 53, 0); target := (2 ^ 53 + 1, 2 ^ 53) |},
        {| distance := 2 ^ 53 |}) /\
  (reset 1 Scenario.entropy (Some (2 ^ 53)) (Scenario.fresh (2 ^ 60))).2
  = Scenario.far_apart /\
  manhattan (2 ^ 53, 0) (2 ^ 53 + 1, 2 ^ 53) = 2 ^ 53 + 1 /\
  2 ^ 53 <> manhattan (2 ^ 53, 0) (2 ^ 53 + 1, 2 ^ 53).
Proof.
  split; [reflexivity|]. split; [reflexivity|]. split; [reflexivity|].
  vm_compute. discriminate.
Qed.

(** C7, amended.  For every observation and info that [reset] or [step]
    returns, the distance is not negative, and it equals the Manhattan
    distance |agent.x - target.x| + |agent.y - target.y| of the two
    positions returned whenever that distance is at most 2^53.  The bound
    is sharp: the distance above is 2^53 + 1. *)
Theorem distance_is_manhattan `{L : Library} (obs : Observation)
  (info : Info) :
  returned obs info ->
  0 <= distance info /\
  (manhattan (agent obs) (target obs) <= 2 ^ 53 ->
   distance info = manhattan (agent obs) (target obs)).
Proof.
  intros [(fuel & entropy & seed & self & self' & Hr)
         | (a & self & reward & terminated & truncated & self' & Hs)].
  - destruct (reset_returns _ _ _ _ _ _ Hr) as (_ & _ & _ & _ & _ & [= -> ->]).
    cbn [distance agent target].
    split; [apply linalg_norm_ord1_nonneg | apply linalg_norm_ord1_exact].
  - destruct (valid_action_dec a) as [Ha | Ha].
    + rewrite (step_valid a self Ha) in Hs.
      injection Hs as <- _ _ _ <- _. cbn [distance agent target].
      split; [apply linalg_norm_ord1_nonneg | apply linalg_norm_ord1_exact].
    + rewrite (step_invalid a self Ha) in Hs. discriminate.
Qed.

Lemma distance_is_manhattan_witness :
  @returned Replay.library
    {| agent := (2, 0); target := (3, 2) |} {| distance := 3 |} /\
  manhattan (2, 0) (3, 2) <= 2 ^ 53 /\
  0 <= 3 /\
  3 = manhattan (2, 0) (3, 2).
Proof.
  assert (Hr : @returned Replay.library
                 {| agent := (2, 0); target := (3, 2) |} {| distance := 3 |}).
  { left. exists 1%nat, Scenario.entropy, (Some 7), (Scenario.fresh 5).
    exists (reset 1 Scenario.entropy (Some 7) (Scenario.fresh 5)).2.
    reflexivity. }
  assert (Hm : manhattan (2, 0) (3, 2) <= 2 ^ 53)
    by (unfold manhattan; cbn; lia).
  destruct (distance_is_manhattan _ _ Hr) as [H0 H1].
  split; [exact Hr|]. split; [exact Hm|]. split; [exact H0|].
  exact (H1 Hm).
Defined.

(** C8.  For an action outside {0,1,2,3} the lookup in the direction table
    finds no entry and [step] fails with the lookup's error, which names the
    action (Python's [KeyError], the InvalidAction of the specification);
    nothing is defaulted, and the state after the failure is the state
    before it, both positions included. *)
Theorem step_invalid_action `{L : Library} (a : Z) (self : GridWorldEnv) :
  ~ valid_action a ->
  _action_to_direction !! a = None /\
  step a self = (Raise (KeyError a), self) /\
  _agent_location (step a self).2 = _agent_location self /\
  _target_location (step a self).2 = _target_location self.
Proof.
  intros Ha. split; [exact (direction_invalid a Ha)|].
  rewrite (step_invalid a self Ha). done.
Qed.

Lemma step_invalid_action_witness :
  ~ valid_action 4 /\
  _action_to_direction !! 4 = None /\
  step 4 Scenario.near_target = (Raise (KeyError 4), Scenario.near_target) /\
  _agent_location (step 4 Scenario.near_target).2 = (2, 2) /\
  _target_location (step 4 Scenario.near_target).2 = (3, 2).
Proof.
  assert (Ha : ~ valid_action 4) by (unfold valid_action; lia).
  split; [exact Ha|].
  exact (step_invalid_action 4 Scenario.near_target Ha).
Defined.

(** C9, as stated, fails at size 1.  [__init__] has no check of its own on
    [size]: with size 1 it builds the environment. *)
Lemma init_size_one_succeeds :
  1 < 2 /\
  __init__ 1 = Ok (Scenario.fresh 1) /\
  ~ (exists x, @__init__ Replay.library 1 = Raise x).
Proof.
  split; [lia|]. split; [reflexivity|].
  intros [x Hx]. discriminate Hx.
Qed.

(** C9, amended.  For every size of 0 or less construction fails: the
    observation space has its upper bound size - 1 below its lower bound 0
    and the space constructor raises ([ValueError], the
    InvalidConfiguration of the specification).  With size 1 construction
    succeeds, storing the size and the sentinel (-1, -1) for both
    positions; and on the environment it builds no reset returns, whatever
    the seed, since every draw on a one-cell grid coincides with the
    agent. *)
Theorem init_fails_below_one_only `{L : Library} :
  (forall n, n <= 0 -> __init__ n = Raise ValueError) /\
  __init__ 1
  = Ok {| size := 1;
          _agent_location := (-1, -1);
          _target_location := (-1, -1);
          observation_space :=
            ({| low := 0; high := 0 |}, {| low := 0; high := 0 |});
          action_space := 4;
          _np_random := None |} /\
  (forall self fuel entropy seed r self',
     __init__ 1 = Ok self ->
     reset fuel entropy seed self <> (Ok r, self')).
Proof.
  split.
  { intros n Hn. unfold __init__.
    rewrite (Box_accepts_unordered (n - 1)) by lia. reflexivity. }
  assert (Hb : Box_accepts 0 (1 - 1) = true).
  { apply Box_accepts_ordered. unfold Int64.max_int. lia. }
  unfold __init__. rewrite Hb. split; [reflexivity|].
  intros self fuel entropy seed r self' [= <-] Hr.
  destruct (reset_returns _ _ _ _ _ _ Hr) as (_ & Hn & _).
  cbn in Hn. lia.
Qed.

Lemma init_fails_below_one_only_witness :
  0 <= 0 /\ @__init__ Replay.library 0 = Raise ValueError /\
  -3 <= 0 /\ @__init__ Replay.library (-3) = Raise ValueError /\
  @__init__ Replay.library 1 = Ok (Scenario.fresh 1) /\
  (reset 4 Scenario.entropy (Some 0) (Scenario.fresh 1)).1 = Diverge.
Proof.
  destruct (@init_fails_below_one_only Replay.library) as (Hlow & Hone & _).
  assert (H0 : 0 <= 0) by lia.
  assert (H3 : -3 <= 0) by lia.
  split; [exact H0|]. split; [exact (Hlow 0 H0)|].
  split; [exact H3|]. split; [exact (Hlow (-3) H3)|].
  split; [exact Hone | reflexivity].
Defined.

(** C10, as stated, fails.  [step] has no check that a reset took place: on
    the environment just built with the default size 5, moving right returns
    an observation computed from the sentinel (-1, -1). *)
Lemma step_before_reset_returns :
  __init__ default_size = Ok (Scenario.fresh 5) /\
  (step 0 (Scenario.fresh 5)).1
  = Ok ({| agent := (0, 0); target := (-1, -1) |}, 0, false, false,
        {| distance := 2 |}) /\
  ~ (exists x, (step 0 (Scenario.fresh 5)).1 = Raise x).
Proof.
  split; [reflexivity|]. split; [reflexivity|].
  intros [x Hx]. discriminate Hx.
Qed.

(** C10, amended.  On a freshly constructed environment of size at least 1,
    on which [reset] has never been called, [step] with an action of
    {0,1,2,3} does not fail: it moves the agent from the sentinel (-1, -1)
    by the direction and clamps it into the grid, leaves the target at
    (-1, -1), and returns reward 0, terminated false and truncated false. *)
Theorem step_before_reset `{L : Library} (n a : Z) (self : GridWorldEnv) :
  __init__ n = Ok self -> 1 <= n -> valid_action a ->
  exists info,
    step a self
    = (Ok ({| agent := clip (array_add (-1, -1) (dir a)) 0 (n - 1);
              target := (-1, -1) |}, 0, false, false, info),
       set_agent_location (clip (array_add (-1, -1) (dir a)) 0 (n - 1)) self)
    /\ in_grid n (clip (array_add (-1, -1) (dir a)) 0 (n - 1)).
Proof.
  unfold __init__. destruct (Box_accepts 0 (n - 1)); [|discriminate].
  intros [= <-] Hn Ha. rewrite (step_valid a _ Ha).
  cbn [moved set_agent_location _agent_location _target_location size].
  set (p := clip (array_add (-1, -1) (dir a)) 0 (n - 1)).
  assert (Hp : in_grid n p).
  { unfold in_grid, p, clip; cbn [fst snd].
    split; apply clip1_bounds; lia. }
  assert (Hne : array_equal p (-1, -1) = false).
  { apply array_equal_false. intros Hp'. rewrite Hp' in Hp.
    unfold in_grid in Hp; cbn in Hp. lia. }
  rewrite Hne. eexists. split; [reflexivity | exact Hp].
Qed.

Lemma step_before_reset_witness :
  __init__ 5 = Ok (Scenario.fresh 5) /\ 1 <= 5 /\ valid_action 3 /\
  exists info,
    step 3 (Scenario.fresh 5)
    = (Ok ({| agent := clip (array_add (-1, -1) (dir 3)) 0 (5 - 1);
              target := (-1, -1) |}, 0, false, false, info),
       set_agent_location (clip (array_add (-1, -1) (dir 3)) 0 (5 - 1))
         (Scenario.fresh 5))
    /\ in_grid 5 (clip (array_add (-1, -1) (dir 3)) 0 (5 - 1)).
Proof.
  assert (Hi : __init__ 5 = Ok (Scenario.fresh 5)) by reflexivity.
  assert (Hn : 1 <= 5) by lia.
  assert (Ha : valid_action 3) by (right; right; right; reflexivity).
  split; [exact Hi|]. split; [exact Hn|]. split; [exact Ha|].
  exact (step_before_reset 5 3 (Scenario.fresh 5) Hi Hn Ha).
Defined.

(** ** More about [step] *)

(** The four actions, one by one, with their directions computed. *)
Ltac each_action Ha :=
  destruct Ha as [-> | [-> | [-> | ->]]];
  [ change (dir 0) with ((1, 0) : array2) in *
  | change (dir 1) with ((0, 1) : array2) in *
  | change (dir 2) with ((-1, 0) : array2) in *
  | change (dir 3) with ((0, -1) : array2) in * ];
  cbn [fst snd] in *.

Section StepMore.

Context `{L : Library}.

(** A coordinate that stays in the grid is not wrapped and not clamped. *)
Lemma move_inside x d n :
  0 <= x + d <= n - 1 -> n <= Int64.max_int + 1 ->
  clip1 (Int64.add x d) 0 (n - 1) = x + d.
Proof.
  intros Hx Hn. unfold Int64.add.
  rewrite wrap64_small by (unfold Int64.min_int, Int64.max_int in *; lia).
  unfold clip1. lia.
Qed.

(** A move that stays in the grid is made as it is. *)
Lemma moved_inside a self :
  post_reset self -> valid_action a ->
  in_grid (size self)
    ((_agent_location self).1 + (dir a).1,
     (_agent_location self).2 + (dir a).2) ->
  _agent_location (moved a self)
  = ((_agent_location self).1 + (dir a).1,
     (_agent_location self).2 + (dir a).2).
Proof.
  intros ([_ Hn] & _) Ha [Hx Hy]. cbn [fst snd] in Hx, Hy.
  unfold moved, clip, array_add. cbn [_agent_location set_agent_location fst snd].
  by rewrite !move_inside.
Qed.

(** A move that would leave the grid leaves the agent where it is. *)
Lemma moved_blocked a self :
  post_reset self -> size self <= Int64.max_int -> valid_action a ->
  ~ in_grid (size self)
      ((_agent_location self).1 + (dir a).1,
       (_agent_location self).2 + (dir a).2) ->
  _agent_location (moved a self) = _agent_location self.
Proof.
  intros (Hn & [Hx Hy] & _) Hmax Ha Hout.
  unfold moved, clip, array_add.
  cbn [_agent_location set_agent_location fst snd].
  destruct (dir_unit a) as [Hd1 Hd2].
  rewrite !move_coordinate by done.
  destruct (_agent_location self) as [x y]. cbn [fst snd] in *.
  unfold in_grid in Hout; cbn [fst snd] in Hout. unfold clamp.
  each_action Ha;
    repeat match goal with
           | |- context [?u <? ?v] => destruct (Z.ltb_spec u v)
           end;
    try lia; f_equal; lia.
Qed.

(** A move is made or blocked. *)
Lemma in_grid_dec n p : in_grid n p \/ ~ in_grid n p.
Proof. unfold in_grid. lia. Qed.

(** Only zero rounds to zero. *)
Lemma float64_of_Z_zero z : Float64.float64_of_Z z = 0 <-> z = 0.
Proof.
  split; [|intros ->; reflexivity].
  unfold Float64.float64_of_Z.
  destruct (Z.leb_spec (Z.log2 (Z.abs z) - 52) 0) as [|He]; [done|].
  assert (Hm : 0 < Z.abs z).
  { destruct (Z.le_gt_cases (Z.abs z) 0) as [Hle | ?]; [|lia].
    pose proof (Z.log2_nonpos (Z.abs z) Hle). lia. }
  remember (Z.abs z) as m eqn:Em.
  remember (Z.log2 m - 52) as e eqn:Ee.
  assert (Hp : 0 < 2 ^ e) by (apply Z.pow_pos_nonneg; lia).
  assert (Hq : 2 ^ 52 <= m / 2 ^ e).
  { apply Z.div_le_lower_bound; [done|].
    rewrite <- Z.pow_add_r by lia.
    replace (e + 52) with (Z.log2 m) by lia.
    apply Z.log2_spec. done. }
  assert (Hz : z <> 0) by lia.
  intros H. apply Z.mul_eq_0 in H as [H | H]; [lia|].
  apply Z.mul_eq_0 in H as [H | H]; [|lia].
  destruct (_ || _); lia.
Qed.

(** The distance is zero exactly on equal positions of the grid. *)
Lemma linalg_norm_ord1_zero n p q :
  in_grid n p -> in_grid n q -> n <= Int64.max_int + 1 ->
  linalg_norm_ord1 (array_sub p q) = 0 <-> p = q.
Proof.
  intros [Hp1 Hp2] [Hq1 Hq2] Hn.
  unfold linalg_norm_ord1, array_sub, Int64.sub, Float64.add, Float64.abs.
  cbn [fst snd]. rewrite float64_of_Z_zero.
  rewrite !wrap64_small by (unfold Int64.min_int, Int64.max_int in *; lia).
  pose proof (float64_of_Z_zero (p.1 - q.1)) as H1.
  pose proof (float64_of_Z_zero (p.2 - q.2)) as H2.
  destruct p as [p1 p2], q as [q1 q2]. cbn [fst snd] in *.
  split.
  - intros H. f_equal; lia.
  - intros [= -> ->]. rewrite !Z.sub_diag. reflexivity.
Qed.

(** The agent moves by one cell at most. *)
Lemma moved_one_cell a self :
  post_reset self -> size self <= Int64.max_int -> valid_action a ->
  manhattan (_agent_location self) (_agent_location (moved a self)) <= 1.
Proof.
  intros Hp Hmax Ha.
  destruct (in_grid_dec (size self)
              ((_agent_location self).1 + (dir a).1,
               (_agent_location self).2 + (dir a).2)) as [Hin | Hout].
  - rewrite (moved_inside a self Hp Ha Hin). unfold manhattan. cbn [fst snd].
    clear Hin. each_action Ha; lia.
  - rewrite (moved_blocked a self Hp Hmax Ha Hout). unfold manhattan. lia.
Qed.

(** The way back: the opposite action is an action, in the opposite
    direction. *)
Lemma opposite_dir a :
  valid_action a ->
  valid_action (opposite a) /\
  (dir (opposite a)).1 = - (dir a).1 /\ (dir (opposite a)).2 = - (dir a).2.
Proof.
  intros [-> | [-> | [-> | ->]]]; (split; [|split; reflexivity]);
    vm_compute; lia.
Qed.

End StepMore.

(** ** Further properties of [step] *)

(** X1.  [step] changes nothing but the agent's position: whatever the
    action, valid or not, the size, the target, the two spaces and the
    random generator are after the call what they were before it. *)
Theorem step_changes_agent_only `{L : Library} (a : Z)
  (self : GridWorldEnv) :
  frame (step a self).2 = frame self.
Proof.
  destruct (valid_action_dec a) as [Ha | Ha].
  - rewrite (step_valid a self Ha). reflexivity.
  - rewrite (step_invalid a self Ha). reflexivity.
Qed.

(** X2.  In a state after a reset, [step] with a valid action returns, with
    the agent's new position in the observation, and: when the destination
    (the agent's position plus the direction) lies in the grid the agent is
    moved exactly there; on a grid narrower than 2^63, when the destination
    lies outside the grid the agent stays where it is.  A blocked move is
    thus neither wrapped nor an error: the call still returns. *)
Theorem step_moves_or_blocks `{L : Library} (a : Z) (self : GridWorldEnv) :
  post_reset self -> valid_action a ->
  exists obs reward terminated info,
    (step a self).1 = Ok (obs, reward, terminated, false, info) /\
    agent obs = _agent_location (step a self).2 /\
    (in_grid (size self)
       ((_agent_location self).1 + (dir a).1,
        (_agent_location self).2 + (dir a).2) ->
     _agent_location (step a self).2
     = ((_agent_location self).1 + (dir a).1,
        (_agent_location self).2 + (dir a).2)) /\
    (size self <= Int64.max_int ->
     ~ in_grid (size self)
         ((_agent_location self).1 + (dir a).1,
          (_agent_location self).2 + (dir a).2) ->
     _agent_location (step a self).2 = _agent_location self).
Proof.
  intros Hp Ha. rewrite (step_valid a self Ha). cbn [fst snd].
  eexists _, _, _, _. split; [reflexivity|]. split; [reflexivity|]. split.
  - exact (moved_inside a self Hp Ha).
  - intros Hmax. exact (moved_blocked a self Hp Hmax Ha).
Qed.

Lemma step_moves_or_blocks_witness :
  post_reset Scenario.corner /\ valid_action 0 /\ valid_action 2 /\
  (* right, into the grid: the agent is moved *)
  (step 0 Scenario.corner).1
  = Ok ({| agent := (1, 0); target := (1, 0) |}, 1, true, false,
        {| distance := 0 |}) /\
  _agent_location (step 0 Scenario.corner).2 = (0 + 1, 0 + 0) /\
  (* left, out of the grid: the call returns and the agent stays *)
  (step 2 Scenario.corner).1
  = Ok ({| agent := (0, 0); target := (1, 0) |}, 0, false, false,
        {| distance := 1 |}) /\
  _agent_location (step 2 Scenario.corner).2
  = _agent_location Scenario.corner.
Proof.
  assert (Hp : post_reset Scenario.corner).
  { unfold post_reset, in_grid, Int64.max_int; cbn. lia. }
  assert (Ha0 : valid_action 0) by (left; reflexivity).
  assert (Ha2 : valid_action 2) by (right; right; left; reflexivity).
  destruct (step_moves_or_blocks 0 Scenario.corner Hp Ha0)
    as (obs0 & rw0 & tm0 & info0 & Hr0 & _ & Hin & _).
  destruct (step_moves_or_blocks 2 Scenario.corner Hp Ha2)
    as (obs2 & rw2 & tm2 & info2 & Hr2 & _ & _ & Hout).
  split; [exact Hp|]. split; [exact Ha0|]. split; [exact Ha2|].
  split; [reflexivity|]. split.
  { apply Hin. unfold in_grid; cbn. lia. }
  split; [reflexivity|].
  apply Hout; [unfold Int64.max_int; cbn; lia|].
  unfold in_grid; cbn. lia.
Defined.

(** X3.  In a state after a reset on a grid narrower than 2^63, a step with
    a valid action moves the agent by at most one cell: the Manhattan
    distance between its positions before and after is at most 1. *)
Theorem step_moves_one_cell `{L : Library} (a : Z) (self : GridWorldEnv) :
  post_reset self -> size self <= Int64.max_int -> valid_action a ->
  manhattan (_agent_location self) (_agent_location (step a self).2) <= 1.
Proof.
  intros Hp Hmax Ha. rewrite (step_valid a self Ha). cbn [snd].
  exact (moved_one_cell a self Hp Hmax Ha).
Qed.

Lemma step_moves_one_cell_witness :
  post_reset Scenario.near_target /\
  size Scenario.near_target <= Int64.max_int /\ valid_action 1 /\
  manhattan (_agent_location Scenario.near_target)
    (_agent_location (step 1 Scenario.near_target).2) <= 1.
Proof.
  assert (Hp : post_reset Scenario.near_target).
  { unfold post_reset, in_grid, Int64.max_int; cbn. lia. }
  assert (Hs : size Scenario.near_target <= Int64.max_int).
  { unfold Int64.max_int; cbn. lia. }
  assert (Ha : valid_action 1) by (right; left; reflexivity).
  split; [exact Hp|]. split; [exact Hs|]. split; [exact Ha|].
  exact (step_moves_one_cell 1 Scenario.near_target Hp Hs Ha).
Defined.

(** X4.  In a state after a reset, what a step with a valid action returns
    is consistent: [terminated] is true exactly when the distance in [info]
    is 0, and so is the reward 1. *)
Theorem step_terminated_iff_distance_zero `{L : Library} (a : Z)
  (self : GridWorldEnv) (obs : Observation) (reward : Z)
  (terminated truncated : bool) (info : Info) (self' : GridWorldEnv) :
  post_reset self -> valid_action a ->
  step a self = (Ok (obs, reward, terminated, truncated, info), self') ->
  (terminated = true <-> distance info = 0) /\
  (reward = 1 <-> distance info = 0).
Proof.
  intros Hp Ha. rewrite (step_valid a self Ha).
  intros [= <- <- <- <- <- <-]. cbn [distance].
  destruct (moved_post_reset a self Hp) as ([_ Hn] & Hag & Htg).
  change (_target_location (moved a self)) with (_target_location self) in Htg.
  change (size (moved a self)) with (size self) in *.
  rewrite (linalg_norm_ord1_zero _ _ _ Hag Htg Hn), <- array_equal_true.
  destruct (array_equal _ _); split; split; done.
Qed.

Lemma step_terminated_iff_distance_zero_witness :
  post_reset Scenario.near_target /\ valid_action 0 /\
  step 0 Scenario.near_target
  = (Ok ({| agent := (3, 2); target := (3, 2) |}, 1, true, false,
         {| distance := 0 |}),
     moved 0 Scenario.near_target) /\
  (true = true <-> 0 = 0) /\ (1 = 1 <-> 0 = 0).
Proof.
  assert (Hp : post_reset Scenario.near_target).
  { unfold post_reset, in_grid, Int64.max_int; cbn. lia. }
  assert (Ha : valid_action 0) by (left; reflexivity).
  assert (Hs : step 0 Scenario.near_target
               = (Ok ({| agent := (3, 2); target := (3, 2) |}, 1, true, false,
                      {| distance := 0 |}),
                  moved 0 Scenario.near_target)) by reflexivity.
  split; [exact Hp|]. split; [exact Ha|]. split; [exact Hs|].
  exact (step_terminated_iff_distance_zero 0 Scenario.near_target
           _ _ _ _ {| distance := 0 |} _ Hp Ha Hs).
Defined.

(** X5.  [step] has no terminal lock-out.  In a state after a reset in
    which the agent is on the target (the episode has terminated), a valid
    action whose destination lies in the grid is carried out as usual: the
    agent leaves the target, and the step returns reward 0 with
    [terminated] false. *)
Theorem step_after_termination `{L : Library} (a : Z)
  (self : GridWorldEnv) :
  post_reset self -> _agent_location self = _target_location self ->
  valid_action a ->
  in_grid (size self)
    ((_agent_location self).1 + (dir a).1,
     (_agent_location self).2 + (dir a).2) ->
  exists obs info,
    (step a self).1 = Ok (obs, 0, false, false, info) /\
    agent obs <> target obs.
Proof.
  intros Hp Heq Ha Hin. rewrite (step_valid a self Ha). cbn [fst].
  assert (Hne : _agent_location (moved a self) <> _target_location self).
  { rewrite (moved_inside a self Hp Ha Hin), <- Heq.
    destruct (_agent_location self) as [x y]. cbn [fst snd]. clear Hin Heq.
    each_action Ha; intros [= ? ?]; lia. }
  apply array_equal_false in Hne as Hb. rewrite Hb.
  eexists _, _. split; [reflexivity | exact Hne].
Qed.

Lemma step_after_termination_witness :
  post_reset Scenario.on_target /\
  _agent_location Scenario.on_target = _target_location Scenario.on_target /\
  valid_action 1 /\
  exists obs info,
    (step 1 Scenario.on_target).1 = Ok (obs, 0, false, false, info) /\
    agent obs <> target obs.
Proof.
  assert (Hp : post_reset Scenario.on_target).
  { unfold post_reset, in_grid, Int64.max_int; cbn. lia. }
  assert (He : _agent_location Scenario.on_target
               = _target_location Scenario.on_target) by reflexivity.
  assert (Ha : valid_action 1) by (right; left; reflexivity).
  split; [exact Hp|]. split; [exact He|]. split; [exact Ha|].
  apply (step_after_termination 1 _ Hp He Ha).
  unfold in_grid; cbn. lia.
Defined.

(** X6.  In a state after a reset, a valid action whose destination lies in
    the grid is undone by the opposite action (left for right, down for
    up): after the two steps the agent is back where it was. *)
Theorem step_opposite_undoes `{L : Library} (a : Z) (self : GridWorldEnv) :
  post_reset self -> valid_action a ->
  in_grid (size self)
    ((_agent_location self).1 + (dir a).1,
     (_agent_location self).2 + (dir a).2) ->
  valid_action (opposite a) /\
  _agent_location (step (opposite a) (step a self).2).2
  = _agent_location self.
Proof.
  intros Hp Ha Hin. destruct (opposite_dir a Ha) as (Ho & Hd1 & Hd2).
  split; [exact Ho|].
  rewrite (step_valid a self Ha). cbn [snd].
  rewrite (step_valid (opposite a) _ Ho). cbn [snd].
  assert (Hback :
    ((_agent_location (moved a self)).1 + (dir (opposite a)).1,
     (_agent_location (moved a self)).2 + (dir (opposite a)).2)
    = _agent_location self).
  { rewrite (moved_inside a self Hp Ha Hin), Hd1, Hd2. cbn [fst snd].
    destruct (_agent_location self) as [x y]. cbn [fst snd]. f_equal; lia. }
  rewrite (moved_inside (opposite a) (moved a self)
             (moved_post_reset a self Hp) Ho).
  - exact Hback.
  - rewrite Hback. destruct Hp as (_ & Hag & _). exact Hag.
Qed.

Lemma step_opposite_undoes_witness :
  post_reset Scenario.corner /\ valid_action 1 /\
  valid_action (opposite 1) /\
  _agent_location (step (opposite 1) (step 1 Scenario.corner).2).2
  = _agent_location Scenario.corner.
Proof.
  assert (Hp : post_reset Scenario.corner).
  { unfold post_reset, in_grid, Int64.max_int; cbn. lia. }
  assert (Ha : valid_action 1) by (right; left; reflexivity).
  split; [exact Hp|]. split; [exact Ha|].
  apply (step_opposite_undoes 1 Scenario.corner Hp Ha).
  unfold in_grid; cbn. lia.
Defined.

(** X7.  On a grid of size up to 2^52, in a state after a reset, a step
    with a valid action changes the distance reported in [info] by at most
    1 with respect to the distance [_get_info] reported before the step. *)
Theorem step_distance_changes_by_one `{L : Library} (a : Z)
  (self : GridWorldEnv) (info0 : Info) (self0 : GridWorldEnv)
  (r : Observation * Z * bool * bool) (info1 : Info)
  (self1 : GridWorldEnv) :
  post_reset self -> size self <= 2 ^ 52 -> valid_action a ->
  _get_info self = (Ok info0, self0) ->
  step a self = (Ok (r, info1), self1) ->
  Z.abs (distance info1 - distance info0) <= 1.
Proof.
  intros Hp Hn Ha [= <- _]. rewrite (step_valid a self Ha).
  intros [= _ <- _]. cbn [distance].
  assert (Hmax : size self <= Int64.max_int) by (unfold Int64.max_int; lia).
  pose proof (moved_one_cell a self Hp Hmax Ha) as Hone.
  destruct (moved_post_reset a self Hp) as (_ & Hag' & _).
  destruct Hp as (_ & Hag & Htg).
  change (size (moved a self)) with (size self) in Hag'.
  rewrite !linalg_norm_ord1_exact
    by (eapply manhattan_in_grid; eassumption).
  unfold moved in *. cbn [_agent_location set_agent_location] in *.
  unfold manhattan in *. lia.
Qed.

Lemma step_distance_changes_by_one_witness :
  post_reset Scenario.corner /\ size Scenario.corner <= 2 ^ 52 /\
  valid_action 1 /\
  _get_info Scenario.corner = (Ok {| distance := 1 |}, Scenario.corner) /\
  Z.abs (2 - 1) <= 1.
Proof.
  assert (Hp : post_reset Scenario.corner).
  { unfold post_reset, in_grid, Int64.max_int; cbn. lia. }
  assert (Hn : size Scenario.corner <= 2 ^ 52) by (cbn; lia).
  assert (Ha : valid_action 1) by (right; left; reflexivity).
  assert (Hi : _get_info Scenario.corner
               = (Ok {| distance := 1 |}, Scenario.corner)) by reflexivity.
  split; [exact Hp|]. split; [exact Hn|]. split; [exact Ha|].
  split; [exact Hi|].
  exact (step_distance_changes_by_one 1 Scenario.corner
           {| distance := 1 |} Scenario.corner
           ({| agent := (0, 1); target := (1, 0) |}, 0, false, false)
           {| distance := 2 |} (moved 1 Scenario.corner)
           Hp Hn Ha Hi eq_refl).
Defined.

(** ** More about [reset] *)

Section ResetMore.

Context `{L : Library}.

(** A draw, whatever its outcome, touches the generator only. *)
Lemma integers_keeps entropy low high self :
  declared (np_random_integers entropy low high self).2 = declared self /\
  _agent_location (np_random_integers entropy low high self).2
  = _agent_location self /\
  _target_location (np_random_integers entropy low high self).2
  = _target_location self.
Proof.
  unfold np_random_integers, np_random, bind, get.
  destruct (_np_random self) as [g |]; cbn.
  - destruct (integers g low high) as [[p g'] |]; done.
  - destruct (integers entropy low high) as [[p g'] |]; done.
Qed.

Lemma super_reset_keeps seed self :
  declared (super_reset seed self).2 = declared self /\
  _agent_location (super_reset seed self).2 = _agent_location self /\
  _target_location (super_reset seed self).2 = _target_location self.
Proof.
  unfold super_reset. destruct seed as [s |]; [|done].
  destruct (seeding_np_random s); done.
Qed.

Lemma resample_declared fuel entropy self :
  declared (resample fuel entropy self).2 = declared self.
Proof.
  revert self. induction fuel as [| fuel IH]; intros self;
    rewrite resample_unfold; destruct (array_equal _ _); try done.
  destruct (integers_keeps entropy 0 (size self) self) as (Hd & _).
  destruct (np_random_integers entropy 0 (size self) self)
    as [[p | x |] s1]; cbn [snd] in *; try done.
  rewrite IH. exact Hd.
Qed.

Lemma reset_declared fuel entropy seed self :
  declared (reset fuel entropy seed self).2 = declared self.
Proof.
  rewrite reset_unfold.
  destruct (super_reset_keeps seed self) as (H0 & _).
  destruct (super_reset seed self) as [[[] | x |] s0]; cbn [snd] in *;
    try done.
  destruct (integers_keeps entropy 0 (size s0) s0) as (H1 & _).
  destruct (np_random_integers entropy 0 (size s0) s0)
    as [[p | x |] s1]; cbn [snd] in *; try congruence.
  pose proof (resample_declared fuel entropy
                (set_target_location p (set_agent_location p s1))) as H2.
  destruct (resample fuel entropy _) as [[[] | x |] s2]; cbn [snd] in *;
    rewrite H2; exact (eq_trans H1 H0).
Qed.

(** An episode leaves alone what the constructor declared and the
    target. *)
Lemma episode_declared actions self :
  declared (episode actions self).2 = declared self.
Proof.
  revert self. induction actions as [| a rest IH]; intros self; [done|].
  cbn [episode]. unfold bind.
  destruct (valid_action_dec a) as [Ha | Ha].
  - rewrite (step_valid a self Ha). rewrite IH. reflexivity.
  - rewrite (step_invalid a self Ha). reflexivity.
Qed.

(** A draw in a state that holds a generator. *)
Lemma integers_from entropy low high self g p g' :
  _np_random self = Some g ->
  integers g low high = Some (p, g') ->
  np_random_integers entropy low high self = (Ok p, set_np_random g' self).
Proof.
  intros Hg Hi. unfold np_random_integers, np_random, bind, get.
  rewrite Hg. cbn. rewrite Hi. reflexivity.
Qed.

(** Two unseeded resets on environments of one size that hold the same
    generator agree. *)
Lemma reset_alike_unseeded fuel e1 e2 s1 s2 :
  seeded_alike s1 s2 ->
  agree (reset fuel e1 None s1) (reset fuel e2 None s2).
Proof.
  intros Hs. rewrite !reset_unfold. unfold super_reset, ret.
  pose proof (integers_alike e1 e2 0 (size s1) s1 s2 Hs) as Hd.
  destruct Hs as (Hsz & Hs). rewrite <- Hsz.
  destruct (np_random_integers e1 0 (size s1) s1) as [[p1 | x1 |] t1],
    (np_random_integers e2 0 (size s1) s2) as [[p2 | x2 |] t2]; try done.
  destruct Hd as (-> & Hst & _).
  pose proof (resample_alike fuel e1 e2
                (set_target_location p2 (set_agent_location p2 t1))
                (set_target_location p2 (set_agent_location p2 t2))
                Hst eq_refl eq_refl) as Hr.
  unfold agree in Hr |- *.
  destruct (resample fuel e1 _) as [[[] | y1 |] u1],
    (resample fuel e2 _) as [[[] | y2 |] u2]; cbn in Hr |- *; try done.
  destruct Hr as (_ & Hsu & Hau & Htu).
  unfold observed. rewrite Hau, Htu. done.
Qed.

End ResetMore.

(** ** Further properties of [reset] *)

(** X8.  A seed the seeding routine rejects makes [reset] fail before
    anything is assigned: the call raises the seeding error and the whole
    state, generator and positions included, is what it was. *)
Theorem reset_rejected_seed `{L : Library} (fuel : nat)
  (entropy : Generator) (seed : Z) (self : GridWorldEnv) :
  seeding_np_random seed = None ->
  reset fuel entropy (Some seed) self = (Raise GymError, self).
Proof.
  intros Hs. rewrite reset_unfold. unfold super_reset. rewrite Hs.
  reflexivity.
Qed.

Lemma reset_rejected_seed_witness :
  @seeding_np_random Replay.library (-1) = None /\
  reset 3 Scenario.entropy (Some (-1)) Scenario.near_target
  = (Raise GymError, Scenario.near_target).
Proof.
  assert (Hs : @seeding_np_random Replay.library (-1) = None)
    by reflexivity.
  split; [exact Hs|].
  exact (reset_rejected_seed 3 Scenario.entropy (-1)
           Scenario.near_target Hs).
Defined.

(** X9.  [reset] returns only on a grid with at least two cells a side that
    fits the integer type: if a call returns, then 2 <= size <= 2^63.  On a
    grid of size 1 or less no call of [reset] returns. *)
Theorem reset_returns_only_on_grid `{L : Library} (fuel : nat)
  (entropy : Generator) (seed : option Z) (self : GridWorldEnv)
  (r : Observation * Info) (self' : GridWorldEnv) :
  reset fuel entropy seed self = (Ok r, self') ->
  2 <= size self <= 2 ^ 63.
Proof.
  intros Hr. destruct (reset_returns _ _ _ _ _ _ Hr) as (_ & Hn & _).
  unfold Int64.max_int in Hn. lia.
Qed.

Lemma reset_returns_only_on_grid_witness :
  reset 1 Scenario.entropy (Some 0) (Scenario.fresh 5)
  = (Ok (observed Scenario.corner), Scenario.corner) /\
  2 <= size (Scenario.fresh 5) <= 2 ^ 63.
Proof.
  assert (Hr : reset 1 Scenario.entropy (Some 0) (Scenario.fresh 5)
               = (Ok (observed Scenario.corner), Scenario.corner))
    by reflexivity.
  split; [exact Hr|].
  exact (reset_returns_only_on_grid _ _ _ _ _ _ Hr).
Defined.

(** X10.  On a grid of size 0 or less [reset] raises, from the seeding or
    from the generator, which has no integer to draw from an empty range;
    the two positions are left as they were. *)
Theorem reset_empty_grid_raises `{L : Library} (fuel : nat)
  (entropy : Generator) (seed : option Z) (self : GridWorldEnv) :
  size self <= 0 ->
  (exists x, (reset fuel entropy seed self).1 = Raise x) /\
  _agent_location (reset fuel entropy seed self).2 = _agent_location self /\
  _target_location (reset fuel entropy seed self).2 = _target_location self.
Proof.
  intros Hn. rewrite reset_unfold.
  destruct (super_reset_keeps seed self) as (Hd0 & Ha0 & Ht0).
  assert (Hok : forall u s0, super_reset seed self = (Ok u, s0) ->
                size s0 = size self).
  { intros u s0 E. rewrite E in Hd0. by injection Hd0. }
  assert (Hnd : forall s0, super_reset seed self <> (Diverge, s0)).
  { unfold super_reset. destruct seed as [s |]; [|done].
    destruct (seeding_np_random s); done. }
  destruct (super_reset seed self) as [[[] | x |] s0] eqn:E0; cbn [snd] in *.
  - pose proof (Hok _ _ eq_refl) as Hs0.
    destruct (integers_keeps entropy 0 (size s0) s0) as (_ & Ha1 & Ht1).
    destruct (np_random_integers entropy 0 (size s0) s0)
      as [[p | x |] s1] eqn:E1; cbn [snd] in *.
    + destruct (integers_returns _ _ _ _ _ _ E1) as (_ & _ & Hp & _). lia.
    + split; [eauto | split; congruence].
    + exfalso. revert E1. unfold np_random_integers, np_random, bind, get.
      destruct (_np_random s0); cbn;
        [destruct (integers g 0 (size s0)) as [[? ?] |]
        | destruct (integers entropy 0 (size s0)) as [[? ?] |]]; done.
  - split; [eauto | done].
  - exfalso. exact (Hnd s0 eq_refl).
Qed.

Lemma reset_empty_grid_raises_witness :
  size (Scenario.fresh 0) <= 0 /\
  (exists x, (reset 2 Scenario.entropy (Some 3) (Scenario.fresh 0)).1
             = Raise x) /\
  _agent_location (reset 2 Scenario.entropy (Some 3) (Scenario.fresh 0)).2
  = (-1, -1) /\
  _target_location (reset 2 Scenario.entropy (Some 3) (Scenario.fresh 0)).2
  = (-1, -1).
Proof.
  assert (Hn : size (Scenario.fresh 0) <= 0) by (cbn; lia).
  split; [exact Hn|].
  exact (reset_empty_grid_raises 2 Scenario.entropy (Some 3)
           (Scenario.fresh 0) Hn).
Defined.

(** X11.  Neither [reset] nor any sequence of steps changes what the
    constructor declared: whatever the outcome of the call, the size, the
    observation space and the action space are afterwards what they were
    before. *)
Theorem declared_is_kept `{L : Library} (fuel : nat) (entropy : Generator)
  (seed : option Z) (actions : list Z) (self : GridWorldEnv) :
  declared (reset fuel entropy seed self).2 = declared self /\
  declared (episode actions self).2 = declared self.
Proof.
  split; [apply reset_declared | apply episode_declared].
Qed.

(** X12.  [reset] takes the first draw as the agent and the first later
    draw that differs from it as the target.  When the seeded generator
    yields [p] and then [q] with [q <> p], a reset with fuel for one turn
    of the loop returns with the agent at [p], the target at [q] and the
    generator advanced by exactly these two draws. *)
Theorem reset_accepts_distinct_draw `{L : Library} (fuel : nat)
  (entropy : Generator) (seed : Z) (self : GridWorldEnv)
  (g g1 g2 : Generator) (p q : array2) :
  seeding_np_random seed = Some g ->
  integers g 0 (size self) = Some (p, g1) ->
  integers g1 0 (size self) = Some (q, g2) ->
  q <> p ->
  reset (S fuel) entropy (Some seed) self
  = (Ok ({| agent := p; target := q |},
         {| distance := linalg_norm_ord1 (array_sub p q) |}),
     set_target_location q (set_agent_location p (set_np_random g2 self))).
Proof.
  intros Hs H1 H2 Hne. apply array_equal_false in Hne.
  assert (Hpp : array_equal p p = true) by by apply array_equal_true.
  rewrite reset_unfold. unfold super_reset. rewrite Hs. unfold modify.
  change (size (set_np_random g self)) with (size self).
  rewrite (integers_from entropy 0 (size self) (set_np_random g self)
             g p g1 eq_refl H1).
  rewrite resample_unfold.
  cbn [_target_location _agent_location set_target_location
       set_agent_location set_np_random size].
  rewrite Hpp.
  erewrite (integers_from entropy 0 (size self) _ g1 q g2);
    [| reflexivity | exact H2].
  rewrite resample_unfold.
  cbn [_target_location _agent_location set_target_location
       set_agent_location set_np_random size].
  rewrite Hne. reflexivity.
Qed.

Lemma reset_accepts_distinct_draw_witness :
  @seeding_np_random Replay.library 7 = Some [(7, 0); (8, 7)] /\
  @integers Replay.library [(7, 0); (8, 7)] 0 (size (Scenario.fresh 5))
  = Some ((2, 0), [(8, 7)]) /\
  @integers Replay.library [(8, 7)] 0 (size (Scenario.fresh 5))
  = Some ((3, 2), []) /\
  ((3, 2) : array2) <> (2, 0) /\
  (reset 1 Scenario.entropy (Some 7) (Scenario.fresh 5)).1
  = Ok ({| agent := (2, 0); target := (3, 2) |},
        {| distance := linalg_norm_ord1 (array_sub (2, 0) (3, 2)) |}).
Proof.
  assert (Hs : @seeding_np_random Replay.library 7 = Some [(7, 0); (8, 7)])
    by reflexivity.
  assert (H1 : @integers Replay.library [(7, 0); (8, 7)] 0
                 (size (Scenario.fresh 5)) = Some ((2, 0), [(8, 7)]))
    by reflexivity.
  assert (H2 : @integers Replay.library [(8, 7)] 0
                 (size (Scenario.fresh 5)) = Some ((3, 2), []))
    by reflexivity.
  assert (Hne : ((3, 2) : array2) <> (2, 0)) by discriminate.
  split; [exact Hs|]. split; [exact H1|]. split; [exact H2|].
  split; [exact Hne|].
  rewrite (reset_accepts_distinct_draw 0 Scenario.entropy 7
             (Scenario.fresh 5) _ _ _ _ _ Hs H1 H2 Hne).
  reflexivity.
Defined.

(** X13.  [reset] rejects a draw for the target that coincides with the
    agent and draws again.  Without a seed it continues the generator the
    environment holds: when that generator yields [p], then [p] again, then
    [q <> p], a reset with fuel for two turns of the loop returns with the
    agent at [p], the target at [q] and the generator advanced by the three
    draws. *)
Theorem reset_rejects_coinciding_draw `{L : Library} (fuel : nat)
  (entropy : Generator) (self : GridWorldEnv)
  (g g1 g2 g3 : Generator) (p q : array2) :
  _np_random self = Some g ->
  integers g 0 (size self) = Some (p, g1) ->
  integers g1 0 (size self) = Some (p, g2) ->
  integers g2 0 (size self) = Some (q, g3) ->
  q <> p ->
  reset (S (S fuel)) entropy None self
  = (Ok ({| agent := p; target := q |},
         {| distance := linalg_norm_ord1 (array_sub p q) |}),
     set_target_location q (set_agent_location p (set_np_random g3 self))).
Proof.
  intros Hg H1 H2 H3 Hne. apply array_equal_false in Hne.
  assert (Hpp : array_equal p p = true) by by apply array_equal_true.
  rewrite reset_unfold. unfold super_reset, ret.
  rewrite (integers_from entropy 0 (size self) self g p g1 Hg H1).
  rewrite resample_unfold.
  cbn [_target_location _agent_location set_target_location
       set_agent_location set_np_random size].
  rewrite Hpp.
  erewrite (integers_from entropy 0 (size self) _ g1 p g2);
    [| reflexivity | exact H2].
  rewrite resample_unfold.
  cbn [_target_location _agent_location set_target_location
       set_agent_location set_np_random size].
  rewrite Hpp.
  erewrite (integers_from entropy 0 (size self) _ g2 q g3);
    [| reflexivity | exact H3].
  rewrite resample_unfold.
  cbn [_target_location _agent_location set_target_location
       set_agent_location set_np_random size].
  rewrite Hne. reflexivity.
Qed.

Lemma reset_rejects_coinciding_draw_witness :
  _np_random Scenario.repeating = Some [(1, 1); (6, 1); (2, 3)] /\
  @integers Replay.library [(1, 1); (6, 1); (2, 3)] 0
    (size Scenario.repeating) = Some ((1, 1), [(6, 1); (2, 3)]) /\
  @integers Replay.library [(6, 1); (2, 3)] 0 (size Scenario.repeating)
  = Some ((1, 1), [(2, 3)]) /\
  @integers Replay.library [(2, 3)] 0 (size Scenario.repeating)
  = Some ((2, 3), []) /\
  ((2, 3) : array2) <> (1, 1) /\
  (reset 2 Scenario.entropy None Scenario.repeating).1
  = Ok ({| agent := (1, 1); target := (2, 3) |},
        {| distance := linalg_norm_ord1 (array_sub (1, 1) (2, 3)) |}).
Proof.
  assert (Hg : _np_random Scenario.repeating
               = Some [(1, 1); (6, 1); (2, 3)]) by reflexivity.
  assert (H1 : @integers Replay.library [(1, 1); (6, 1); (2, 3)] 0
                 (size Scenario.repeating)
               = Some ((1, 1), [(6, 1); (2, 3)])) by reflexivity.
  assert (H2 : @integers Replay.library [(6, 1); (2, 3)] 0
                 (size Scenario.repeating) = Some ((1, 1), [(2, 3)]))
    by reflexivity.
  assert (H3 : @integers Replay.library [(2, 3)] 0
                 (size Scenario.repeating) = Some ((2, 3), []))
    by reflexivity.
  assert (Hne : ((2, 3) : array2) <> (1, 1)) by discriminate.
  split; [exact Hg|]. split; [exact H1|]. split; [exact H2|].
  split; [exact H3|]. split; [exact Hne|].
  rewrite (reset_rejects_coinciding_draw 0 Scenario.entropy
             Scenario.repeating _ _ _ _ _ _ Hg H1 H2 H3 Hne).
  reflexivity.
Defined.

(** X14.  Without a seed, [reset] depends on the generator the environment
    holds and on the size, and on nothing else of the state: two
    environments of the same size that hold the same generator get the same
    outcome (the same observation and info and the same positions, or the
    same failure), whatever positions they held before. *)
Theorem reset_unseeded_ignores_positions `{L : Library} (fuel : nat)
  (entropy1 entropy2 : Generator) (self1 self2 : GridWorldEnv) :
  size self1 = size self2 ->
  _np_random self1 = _np_random self2 ->
  is_Some (_np_random self1) ->
  (reset fuel entropy1 None self1).1 = (reset fuel entropy2 None self2).1 /\
  (forall r, (reset fuel entropy1 None self1).1 = Ok r ->
     _agent_location (reset fuel entropy1 None self1).2
     = _agent_location (reset fuel entropy2 None self2).2 /\
     _target_location (reset fuel entropy1 None self1).2
     = _target_location (reset fuel entropy2 None self2).2).
Proof.
  intros Hsz Hg Hsome.
  pose proof (reset_alike_unseeded fuel entropy1 entropy2 self1 self2
                (conj Hsz (conj Hg Hsome))) as H.
  unfold agree in H.
  destruct (reset fuel entropy1 None self1) as [[r1 | x1 |] t1],
    (reset fuel entropy2 None self2) as [[r2 | x2 |] t2];
    cbn [fst snd] in *; try done.
  - destruct H as (-> & _ & Ha & Ht). done.
  - subst. done.
Qed.

Lemma reset_unseeded_ignores_positions_witness :
  size Scenario.repeating = size Scenario.repeating_elsewhere /\
  _np_random Scenario.repeating = _np_random Scenario.repeating_elsewhere /\
  is_Some (_np_random Scenario.repeating) /\
  _agent_location Scenario.repeating
  <> _agent_location Scenario.repeating_elsewhere /\
  (reset 2 Scenario.entropy None Scenario.repeating).1
  = Ok ({| agent := (1, 1); target := (2, 3) |}, {| distance := 3 |}) /\
  (reset 2 Scenario.entropy None Scenario.repeating_elsewhere).1
  = Ok ({| agent := (1, 1); target := (2, 3) |}, {| distance := 3 |}) /\
  _agent_location (reset 2 Scenario.entropy None Scenario.repeating).2
  = _agent_location
      (reset 2 Scenario.entropy None Scenario.repeating_elsewhere).2 /\
  _target_location (reset 2 Scenario.entropy None Scenario.repeating).2
  = _target_location
      (reset 2 Scenario.entropy None Scenario.repeating_elsewhere).2.
Proof.
  assert (Hs : size Scenario.repeating = size Scenario.repeating_elsewhere)
    by reflexivity.
  assert (Hg : _np_random Scenario.repeating
               = _np_random Scenario.repeating_elsewhere) by reflexivity.
  assert (Hi : is_Some (_np_random Scenario.repeating)) by (by eexists).
  assert (Hne : _agent_location Scenario.repeating
                <> _agent_location Scenario.repeating_elsewhere)
    by discriminate.
  assert (Hr : (reset 2 Scenario.entropy None Scenario.repeating).1
               = Ok ({| agent := (1, 1); target := (2, 3) |},
                     {| distance := 3 |})) by reflexivity.
  destruct (reset_unseeded_ignores_positions 2 Scenario.entropy
              Scenario.entropy Scenario.repeating
              Scenario.repeating_elsewhere Hs Hg Hi) as [Ho Hp].
  split; [exact Hs|]. split; [exact Hg|]. split; [exact Hi|].
  split; [exact Hne|]. split; [exact Hr|].
  split; [rewrite <- Ho; exact Hr|].
  exact (Hp _ Hr).
Defined.

(** ** Properties of the constructor's declarations *)

(** X15.  The observations stay in the declared observation space.  On an
    environment built by [__init__], after a reset that returns and any
    sequence of valid actions, the observation the reset returned and the
    observation of the state reached both lie within the bounds of
    [observation_space]. *)
Theorem observation_in_declared_space `{L : Library} (n : Z) (fuel : nat)
  (entropy : Generator) (seed : option Z) (actions : list Z)
  (self0 : GridWorldEnv) (r : Observation * Info)
  (self1 self2 : GridWorldEnv) :
  __init__ n = Ok self0 ->
  reset fuel entropy seed self0 = (Ok r, self1) ->
  Forall valid_action actions ->
  episode actions self1 = (Ok tt, self2) ->
  in_observation_space self1 r.1 /\
  exists obs,
    (_get_obs self2).1 = Ok obs /\ in_observation_space self2 obs.
Proof.
  intros Hi Hr Hv He.
  assert (Hd0 : declared self0
                = (n, ({| low := 0; high := n - 1 |},
                       {| low := 0; high := n - 1 |}), 4)).
  { unfold __init__ in Hi. destruct (Box_accepts 0 (n - 1)); [|discriminate].
    by injection Hi as <-. }
  pose proof (reset_declared fuel entropy seed self0) as Hd1.
  rewrite Hr in Hd1. cbn [snd] in Hd1.
  pose proof (episode_declared actions self1) as Hd2.
  rewrite He in Hd2. cbn [snd] in Hd2.
  rewrite Hd1, Hd0 in Hd2. rewrite Hd0 in Hd1.
  injection Hd1 as Hs1 Ho1 _. injection Hd2 as Hs2 Ho2 _.
  pose proof (reset_post_reset _ _ _ _ _ _ Hr) as Hp1.
  destruct (reset_returns _ _ _ _ _ _ Hr) as (_ & _ & _ & _ & _ & ->).
  destruct (episode_post_reset actions self1 Hp1 Hv)
    as (s & He' & Hp2 & _). rewrite He in He'. injection He' as <-.
  destruct Hp1 as (_ & Ha1 & Ht1). destruct Hp2 as (_ & Ha2 & Ht2).
  rewrite Hs1 in Ha1, Ht1. rewrite Hs2 in Ha2, Ht2.
  unfold in_observation_space, in_box, in_grid in *.
  rewrite Ho1, Ho2. split; [cbn; lia|].
  eexists. split; [reflexivity|]. cbn. lia.
Qed.

Lemma observation_in_declared_space_witness :
  __init__ 5 = Ok (Scenario.fresh 5) /\
  reset 1 Scenario.entropy (Some 0) (Scenario.fresh 5)
  = (Ok (observed Scenario.corner), Scenario.corner) /\
  Forall valid_action [0; 1] /\
  episode [0; 1] Scenario.corner
  = (Ok tt, (episode [0; 1] Scenario.corner).2) /\
  in_observation_space Scenario.corner (observed Scenario.corner).1 /\
  exists obs,
    (_get_obs (episode [0; 1] Scenario.corner).2).1 = Ok obs /\
    in_observation_space (episode [0; 1] Scenario.corner).2 obs.
Proof.
  assert (Hi : __init__ 5 = Ok (Scenario.fresh 5)) by reflexivity.
  assert (Hr : reset 1 Scenario.entropy (Some 0) (Scenario.fresh 5)
               = (Ok (observed Scenario.corner), Scenario.corner))
    by reflexivity.
  assert (Hv : Forall valid_action [0; 1])
    by (repeat constructor; unfold valid_action; lia).
  assert (He : episode [0; 1] Scenario.corner
               = (Ok tt, (episode [0; 1] Scenario.corner).2))
    by reflexivity.
  split; [exact Hi|]. split; [exact Hr|]. split; [exact Hv|].
  split; [exact He|].
  exact (observation_in_declared_space 5 1 Scenario.entropy (Some 0)
           [0; 1] _ _ _ _ Hi Hr Hv He).
Defined.

(** X16.  Before the first reset the observation is not in the declared
    observation space: on the environment [__init__] builds, whatever the
    size, [_get_obs] returns the sentinel (-1, -1) for both positions,
    which lies below the lower bound 0 of the space. *)
Theorem fresh_observation_outside_space `{L : Library} (n : Z)
  (self : GridWorldEnv) :
  __init__ n = Ok self ->
  (_get_obs self).1
  = Ok {| agent := (-1, -1); target := (-1, -1) |} /\
  ~ in_box (observation_space self).1 (-1, -1) /\
  ~ in_box (observation_space self).2 (-1, -1).
Proof.
  unfold __init__. destruct (Box_accepts 0 (n - 1)); [|discriminate].
  intros [= <-]. split; [reflexivity|].
  unfold in_box; cbn. lia.
Qed.

Lemma fresh_observation_outside_space_witness :
  __init__ 5 = Ok (Scenario.fresh 5) /\
  (_get_obs (Scenario.fresh 5)).1
  = Ok {| agent := (-1, -1); target := (-1, -1) |} /\
  ~ in_box (observation_space (Scenario.fresh 5)).1 (-1, -1) /\
  ~ in_box (observation_space (Scenario.fresh 5)).2 (-1, -1).
Proof.
  assert (Hi : __init__ 5 = Ok (Scenario.fresh 5)) by reflexivity.
  split; [exact Hi|].
  exact (fresh_observation_outside_space 5 (Scenario.fresh 5) Hi).
Defined.

(** X17.  [step] accepts exactly the actions of the declared action space:
    on an environment built by [__init__], [step] returns for an action
    [a] if and only if 0 <= a < action_space, and raises [KeyError a]
    otherwise. *)
Theorem step_accepts_action_space `{L : Library} (n a : Z)
  (self : GridWorldEnv) :
  __init__ n = Ok self ->
  (0 <= a < action_space self <-> exists r, (step a self).1 = Ok r) /\
  (~ 0 <= a < action_space self <-> (step a self).1 = Raise (KeyError a)).
Proof.
  unfold __init__. destruct (Box_accepts 0 (n - 1)); [|discriminate].
  intros [= <-]. cbn [action_space].
  destruct (valid_action_dec a) as [Ha | Ha].
  - rewrite (step_valid a _ Ha). cbn [fst].
    assert (0 <= a < 4) by (unfold valid_action in Ha; lia).
    split; split; try done; eauto.
  - rewrite (step_invalid a _ Ha). cbn [fst].
    assert (~ 0 <= a < 4) by (unfold valid_action in Ha; lia).
    split; split; try done. intros [r Hr]. discriminate.
Qed.

Lemma step_accepts_action_space_witness :
  __init__ 5 = Ok (Scenario.fresh 5) /\
  (0 <= 4 < action_space (Scenario.fresh 5) <->
   exists r, (step 4 (Scenario.fresh 5)).1 = Ok r) /\
  (~ 0 <= 4 < action_space (Scenario.fresh 5) <->
   (step 4 (Scenario.fresh 5)).1 = Raise (KeyError 4)).
Proof.
  assert (Hi : __init__ 5 = Ok (Scenario.fresh 5)) by reflexivity.
  split; [exact Hi|].
  exact (step_accepts_action_space 5 4 (Scenario.fresh 5) Hi).
Defined.

(** ** Routes: how steps compose *)

Section RouteFacts.

Context `{L : Library}.

(** An episode run in two parts. *)
Lemma episode_app l1 l2 self s1 :
  episode l1 self = (Ok tt, s1) ->
  episode (l1 ++ l2) self = episode l2 s1.
Proof.
  revert self. induction l1 as [| a l1 IH]; intros self.
  - cbn. unfold ret. by intros [= ->].
  - cbn [episode app]. unfold bind.
    destruct (step a self) as [[r | x |] s]; try done. apply IH.
Qed.

(** The same action [k] times, towards a cell of the grid: each step is
    made as it is. *)
Lemma episode_replicate a k self :
  post_reset self -> valid_action a ->
  in_grid (size self)
    ((_agent_location self).1 + Z.of_nat k * (dir a).1,
     (_agent_location self).2 + Z.of_nat k * (dir a).2) ->
  exists s',
    episode (replicate k a) self = (Ok tt, s') /\
    _agent_location s'
    = ((_agent_location self).1 + Z.of_nat k * (dir a).1,
       (_agent_location self).2 + Z.of_nat k * (dir a).2) /\
    frame s' = frame self.
Proof.
  intros Hp Ha. revert self Hp. induction k as [| k IH]; intros self Hp Hin.
  - exists self. split; [done|]. split; [|done].
    destruct (_agent_location self); cbn [fst snd]; f_equal; lia.
  - cbn [replicate episode]. unfold bind. rewrite (step_valid a self Ha).
    assert (Hin1 : in_grid (size self)
                     ((_agent_location self).1 + (dir a).1,
                      (_agent_location self).2 + (dir a).2)).
    { destruct Hp as (_ & Hag & _). clear IH.
      unfold in_grid in *. cbn [fst snd] in *. each_action Ha; lia. }
    pose proof (moved_inside a self Hp Ha Hin1) as Hm.
    destruct (IH (moved a self) (moved_post_reset a self Hp))
      as (s' & He & Hs & Hf).
    { rewrite Hm. cbn [fst snd]. change (size (moved a self)) with (size self).
      unfold in_grid in *. cbn [fst snd] in *. lia. }
    exists s'. split; [exact He|]. split.
    + rewrite Hs, Hm. cbn [fst snd]. f_equal; lia.
    + rewrite Hf. reflexivity.
Qed.

(** Walking along x, then along y. *)
Lemma episode_walk_x t self :
  post_reset self -> 0 <= t <= size self - 1 ->
  exists s',
    episode (walk (_agent_location self).1 t 0 2) self = (Ok tt, s') /\
    _agent_location s' = (t, (_agent_location self).2) /\
    frame s' = frame self.
Proof.
  intros Hp Ht. pose proof Hp as (_ & [Hx Hy] & _). unfold walk.
  destruct (Z.leb_spec (_agent_location self).1 t).
  - destruct (episode_replicate 0 (Z.to_nat (t - (_agent_location self).1))
                self Hp) as (s' & He & Hs & Hf).
    { left. done. }
    { change (dir 0) with ((1, 0) : array2). cbn [fst snd].
      rewrite Z2Nat.id by lia. unfold in_grid; cbn [fst snd]. lia. }
    exists s'. split; [exact He|]. split; [|exact Hf].
    rewrite Hs. change (dir 0) with ((1, 0) : array2). cbn [fst snd].
    rewrite Z2Nat.id by lia. f_equal; lia.
  - destruct (episode_replicate 2 (Z.to_nat ((_agent_location self).1 - t))
                self Hp) as (s' & He & Hs & Hf).
    { right. right. left. done. }
    { change (dir 2) with ((-1, 0) : array2). cbn [fst snd].
      rewrite Z2Nat.id by lia. unfold in_grid; cbn [fst snd]. lia. }
    exists s'. split; [exact He|]. split; [|exact Hf].
    rewrite Hs. change (dir 2) with ((-1, 0) : array2). cbn [fst snd].
    rewrite Z2Nat.id by lia. f_equal; lia.
Qed.

Lemma episode_walk_y t self :
  post_reset self -> 0 <= t <= size self - 1 ->
  exists s',
    episode (walk (_agent_location self).2 t 1 3) self = (Ok tt, s') /\
    _agent_location s' = ((_agent_location self).1, t) /\
    frame s' = frame self.
Proof.
  intros Hp Ht. pose proof Hp as (_ & [Hx Hy] & _). unfold walk.
  destruct (Z.leb_spec (_agent_location self).2 t).
  - destruct (episode_replicate 1 (Z.to_nat (t - (_agent_location self).2))
                self Hp) as (s' & He & Hs & Hf).
    { right. left. done. }
    { change (dir 1) with ((0, 1) : array2). cbn [fst snd].
      rewrite Z2Nat.id by lia. unfold in_grid; cbn [fst snd]. lia. }
    exists s'. split; [exact He|]. split; [|exact Hf].
    rewrite Hs. change (dir 1) with ((0, 1) : array2). cbn [fst snd].
    rewrite Z2Nat.id by lia. f_equal; lia.
  - destruct (episode_replicate 3 (Z.to_nat ((_agent_location self).2 - t))
                self Hp) as (s' & He & Hs & Hf).
    { right. right. right. done. }
    { change (dir 3) with ((0, -1) : array2). cbn [fst snd].
      rewrite Z2Nat.id by lia. unfold in_grid; cbn [fst snd]. lia. }
    exists s'. split; [exact He|]. split; [|exact Hf].
    rewrite Hs. change (dir 3) with ((0, -1) : array2). cbn [fst snd].
    rewrite Z2Nat.id by lia. f_equal; lia.
Qed.

(** A route has as many actions as the positions are apart. *)
Lemma route_length p q : Z.of_nat (length (route p q)) = manhattan p q.
Proof.
  unfold route, walk, manhattan. rewrite length_app.
  repeat case_match; rewrite !length_replicate;
    repeat match goal with
           | H : (_ <=? _) = true |- _ => apply Z.leb_le in H
           | H : (_ <=? _) = false |- _ => apply Z.leb_gt in H
           end; lia.
Qed.

(** The triangle inequality of the Manhattan distance. *)
Lemma manhattan_triangle p q r :
  manhattan p r <= manhattan p q + manhattan q r.
Proof. unfold manhattan. lia. Qed.

End RouteFacts.

(** X18.  The target can always be reached: from any state a reset has
    left, the route along x and then along y, which has as many actions as
    the Manhattan distance of agent and target, is an episode in which
    every step returns and which ends with the agent on the target,
    nothing else changed. *)
Theorem route_reaches_target `{L : Library} (self : GridWorldEnv) :
  post_reset self ->
  exists self',
    episode (route (_agent_location self) (_target_location self)) self
    = (Ok tt, self') /\
    _agent_location self' = _target_location self /\
    frame self' = frame self /\
    Z.of_nat (length (route (_agent_location self) (_target_location self)))
    = manhattan (_agent_location self) (_target_location self).
Proof.
  intros Hp. pose proof Hp as (Hn & _ & [Ht1 Ht2]).
  destruct (episode_walk_x (_target_location self).1 self Hp Ht1)
    as (s1 & He1 & Hs1 & Hf1).
  assert (Hp1 : post_reset s1).
  { injection Hf1 as Hsz Htg _ _ _.
    unfold post_reset. rewrite Hsz, Htg, Hs1.
    destruct Hp as (_ & [_ Hy] & Ht). unfold in_grid in *. cbn [fst snd]. lia. }
  assert (Hsz : size s1 = size self) by (by injection Hf1).
  destruct (episode_walk_y (_target_location self).2 s1 Hp1)
    as (s2 & He2 & Hs2 & Hf2); [rewrite Hsz; exact Ht2|].
  exists s2. unfold route.
  rewrite (episode_app _ _ _ _ He1).
  replace (_agent_location self).2 with (_agent_location s1).2
    by (rewrite Hs1; reflexivity).
  split; [exact He2|]. split.
  - rewrite Hs2, Hs1. cbn [fst snd]. by destruct (_target_location self).
  - split; [by rewrite Hf2|].
    rewrite Hs1. cbn [snd]. apply route_length.
Qed.

Lemma route_reaches_target_witness :
  post_reset Scenario.repeating /\
  exists self',
    episode (route (_agent_location Scenario.repeating)
                   (_target_location Scenario.repeating)) Scenario.repeating
    = (Ok tt, self') /\
    _agent_location self' = _target_location Scenario.repeating /\
    frame self' = frame Scenario.repeating /\
    Z.of_nat (length (route (_agent_location Scenario.repeating)
                            (_target_location Scenario.repeating)))
    = manhattan (_agent_location Scenario.repeating)
                (_target_location Scenario.repeating).
Proof.
  assert (Hp : post_reset Scenario.repeating)
    by (unfold post_reset, in_grid, Int64.max_int; cbn; lia).
  split; [exact Hp|].
  exact (route_reaches_target Scenario.repeating Hp).
Defined.

(** X19.  No episode is shorter than the distance it covers: on a grid of
    size at most 2^63 - 1, after a sequence of steps that all return the
    agent is at most as many cells from where it started as steps were
    taken; so an episode that ends on the target has at least as many
    steps as the Manhattan distance of agent and target at its start. *)
Theorem episode_covers_at_most_its_length `{L : Library}
  (actions : list Z) (self self' : GridWorldEnv) :
  post_reset self -> size self <= Int64.max_int ->
  episode actions self = (Ok tt, self') ->
  manhattan (_agent_location self) (_agent_location self')
  <= Z.of_nat (length actions) /\
  (_agent_location self' = _target_location self ->
   manhattan (_agent_location self) (_target_location self)
   <= Z.of_nat (length actions)).
Proof.
  intros Hp Hmax He.
  assert (Hd : manhattan (_agent_location self) (_agent_location self')
               <= Z.of_nat (length actions)).
  { revert self Hp Hmax He.
    induction actions as [| a rest IH]; intros self Hp Hmax.
    - cbn. unfold ret. intros [= <-]. unfold manhattan. lia.
    - cbn [episode]. unfold bind.
      destruct (valid_action_dec a) as [Ha | Ha].
      + rewrite (step_valid a self Ha). intros He.
        pose proof (IH (moved a self) (moved_post_reset a self Hp) Hmax He)
          as Hrest.
        pose proof (moved_one_cell a self Hp Hmax Ha) as Hone.
        pose proof (manhattan_triangle (_agent_location self)
                      (_agent_location (moved a self))
                      (_agent_location self')) as Htri.
        cbn [length]. lia.
      + rewrite (step_invalid a self Ha). discriminate. }
  split; [exact Hd|]. by intros <-.
Qed.

Lemma episode_covers_at_most_its_length_witness :
  post_reset Scenario.near_target /\
  size Scenario.near_target <= Int64.max_int /\
  episode [1; 0; 3] Scenario.near_target = (Ok tt, Scenario.on_target) /\
  manhattan (_agent_location Scenario.near_target)
            (_agent_location Scenario.on_target)
  <= Z.of_nat (length [1; 0; 3]) /\
  (_agent_location Scenario.on_target
   = _target_location Scenario.near_target ->
   manhattan (_agent_location Scenario.near_target)
             (_target_location Scenario.near_target)
   <= Z.of_nat (length [1; 0; 3])).
Proof.
  assert (Hp : post_reset Scenario.near_target)
    by (unfold post_reset, in_grid, Int64.max_int; cbn; lia).
  assert (Hn : size Scenario.near_target <= Int64.max_int)
    by (unfold Int64.max_int; cbn; lia).
  assert (He : episode [1; 0; 3] Scenario.near_target
               = (Ok tt, Scenario.on_target)) by reflexivity.
  split; [exact Hp|]. split; [exact Hn|]. split; [exact He|].
  exact (episode_covers_at_most_its_length [1; 0; 3] Scenario.near_target
           Scenario.on_target Hp Hn He).
Defined.

(** ** Episodes started again *)

(** X20.  A reset with the same seed starts the same episode again.  When a
    seeded reset has returned, then after any sequence of steps (returning
    or raising) a reset with that seed returns the same observation and
    info and leaves the environment in exactly the state the first reset
    left, whatever entropy the system would supply. *)
Theorem reset_restores_after_episode `{L : Library} (fuel : nat)
  (entropy1 entropy2 : Generator) (seed : Z) (actions : list Z)
  (self : GridWorldEnv) (r : Observation * Info) (self1 : GridWorldEnv) :
  reset fuel entropy1 (Some seed) self = (Ok r, self1) ->
  reset fuel entropy2 (Some seed) (episode actions self1).2 = (Ok r, self1).
Proof.
  intros Hr.
  pose proof (reset_declared fuel entropy1 (Some seed) self) as Hd1.
  rewrite Hr in Hd1. cbn [snd] in Hd1.
  pose proof (episode_declared actions self1) as Hd2.
  remember (episode actions self1).2 as self2 eqn:E2. clear E2.
  assert (Hsz : size self = size self2).
  { rewrite Hd1 in Hd2. by injection Hd2. }
  pose proof (reset_alike fuel entropy1 entropy2 seed self self2 Hsz) as Hag.
  pose proof (reset_declared fuel entropy2 (Some seed) self2) as Hd3.
  unfold agree in Hag. rewrite Hr in Hag. cbn [fst snd] in Hag.
  destruct (reset fuel entropy2 (Some seed) self2) as [[r' | x |] s'];
    cbn [fst snd] in *; try done.
  destruct Hag as (<- & (_ & Hg & _) & Ha & Ht).
  rewrite Hd2 in Hd3. injection Hd3 as Hs Ho Hc.
  f_equal. destruct self1, s'. cbn in *. congruence.
Qed.

Lemma reset_restores_after_episode_witness :
  reset 1 Scenario.entropy (Some 0) (Scenario.fresh 5)
  = (Ok (observed Scenario.corner), Scenario.corner) /\
  reset 1 Scenario.entropy (Some 0) (episode [0; 1; 7] Scenario.corner).2
  = (Ok (observed Scenario.corner), Scenario.corner).
Proof.
  assert (Hr : reset 1 Scenario.entropy (Some 0) (Scenario.fresh 5)
               = (Ok (observed Scenario.corner), Scenario.corner))
    by reflexivity.
  split; [exact Hr|].
  exact (reset_restores_after_episode 1 Scenario.entropy Scenario.entropy 0
           [0; 1; 7] (Scenario.fresh 5) _ _ Hr).
Defined.
